(** * generate_feed.py: a product feed generator, embedded and verified

    The program reads a sitemap, scrapes the JSON-LD block of every product
    page, normalises it into a product record and writes one RSS 2.0 file.
    This development embeds [src/generate_feed.py] function by function and
    proves the properties its specification states about it.

    Conventions of the embedding.
    - A Python [str] is the sequence of its Unicode code points: [str] is
      [list N].  [len], slicing, [in], [replace], [<] and [lower] then act on
      code points, as they do in Python.  [u "..."] turns an ASCII literal
      into such a sequence.
    - A value that [json.loads] can return is a [json]; a Python call that
      may raise returns a [result]; a function that may return [None] returns
      an [option].
    - What belongs to the Python runtime and to the world around it (regular
      expression matching, [json.loads], [html.unescape], [repr], the non-ASCII
      part of [str.lower], the network, the scheduler) is the interface
      [Runtime], or an argument. *)

From Stdlib Require Import ZArith NArith String Ascii Bool Lia List.
From Stdlib Require Import Sorting.Sorted Sorting.Permutation SpecFloat.
Import ListNotations.

Set Implicit Arguments.
Local Open Scope N_scope.

(** ** Python strings *)

Definition str := list N.

Definition u (s : string) : str := map N_of_ascii (list_ascii_of_string s).

Definition str_eqb (a b : str) : bool :=
  if list_eq_dec N.eq_dec a b then true else false.

(** [s.startswith(p)] *)
Fixpoint startswith (p s : str) : bool :=
  match p, s with
  | [], _ => true
  | _ :: _, [] => false
  | a :: p', b :: s' => (a =? b) && startswith p' s'
  end.

(** [p in s] *)
Fixpoint contains (p s : str) : bool :=
  startswith p s ||
  match s with
  | [] => false
  | _ :: s' => contains p s'
  end.

(** [s.replace(old, new)]: the occurrences of [old] are found from the left
    and do not overlap; [skip] counts the characters of a matched occurrence
    that are still to be passed over. *)
Fixpoint replace_from (old new : str) (skip : nat) (s : str) : str :=
  match s with
  | [] => []
  | c :: s' =>
      match skip with
      | S k => replace_from old new k s'
      | O =>
          if startswith old s
          then new ++ replace_from old new (Nat.pred (length old)) s'
          else c :: replace_from old new O s'
      end
  end.

Definition replace (old new s : str) : str :=
  match old with
  | [] => new ++ flat_map (fun c => c :: new) s
  | _ :: _ => replace_from old new O s
  end.

(** [s.rstrip(chars)] and [s.strip()] *)
Fixpoint lstrip_by (f : N -> bool) (s : str) : str :=
  match s with
  | [] => []
  | c :: s' => if f c then lstrip_by f s' else s
  end.

Definition rstrip_by (f : N -> bool) (s : str) : str :=
  rev (lstrip_by f (rev s)).

Definition rstrip (chars s : str) : str :=
  rstrip_by (fun c => existsb (N.eqb c) chars) s.

(** The code points for which [str.isspace] holds. *)
Definition isspace (c : N) : bool :=
  ((9 <=? c) && (c <=? 13)) || ((28 <=? c) && (c <=? 32)) ||
  (c =? 133) || (c =? 160) || (c =? 5760) ||
  ((8192 <=? c) && (c <=? 8202)) || (c =? 8232) || (c =? 8233) ||
  (c =? 8239) || (c =? 8287) || (c =? 12288).

Definition strip (s : str) : str := rstrip_by isspace (lstrip_by isspace s).

(** [s.split(sep)] for a separator of one character: never an empty list. *)
Fixpoint split (sep : N) (s : str) : list str :=
  match s with
  | [] => [[]]
  | c :: s' =>
      if c =? sep then [] :: split sep s'
      else match split sep s' with
           | seg :: segs => (c :: seg) :: segs
           | [] => [[c]]
           end
  end.

(** ["\n".join(lines)] *)
Fixpoint join (sep : str) (l : list str) : str :=
  match l with
  | [] => []
  | [x] => x
  | x :: l' => x ++ sep ++ join sep l'
  end.

(** [a < b] on strings: by code point, a proper prefix first. *)
Fixpoint str_ltb (a b : str) : bool :=
  match a, b with
  | _, [] => false
  | [], _ :: _ => true
  | x :: a', y :: b' => (x <? y) || ((x =? y) && str_ltb a' b')
  end.


(** A code point that UTF-8 can encode: below 0x110000 and no surrogate. *)
Definition is_scalar (c : N) : bool :=
  (c <? 55296) || ((57343 <? c) && (c <? 1114112)).

(** ** Results of calls that may raise *)

Inductive result (A : Type) : Type :=
| Ok (a : A)
| Raise.
Arguments Raise {A}.

Definition bind {A B} (r : result A) (k : A -> result B) : result B :=
  match r with
  | Ok a => k a
  | Raise => Raise
  end.

Notation "x <- r ;; k" := (bind r (fun x => k))
  (at level 61, r at next level, right associativity).

(** ** hashlib.md5 *)

Module MD5.
Local Open Scope Z_scope.

Definition mask32 (x : Z) : Z := x mod 4294967296.
Definition not32 (x : Z) : Z := Z.lxor x 4294967295.

Definition rotl (x : Z) (c : Z) : Z :=
  mask32 (Z.lor (Z.shiftl x c) (Z.shiftr x (32 - c))).

Definition K : list Z :=
  [ 0xd76aa478; 0xe8c7b756; 0x242070db; 0xc1bdceee;
    0xf57c0faf; 0x4787c62a; 0xa8304613; 0xfd469501;
    0x698098d8; 0x8b44f7af; 0xffff5bb1; 0x895cd7be;
    0x6b901122; 0xfd987193; 0xa679438e; 0x49b40821;
    0xf61e2562; 0xc040b340; 0x265e5a51; 0xe9b6c7aa;
    0xd62f105d; 0x02441453; 0xd8a1e681; 0xe7d3fbc8;
    0x21e1cde6; 0xc33707d6; 0xf4d50d87; 0x455a14ed;
    0xa9e3e905; 0xfcefa3f8; 0x676f02d9; 0x8d2a4c8a;
    0xfffa3942; 0x8771f681; 0x6d9d6122; 0xfde5380c;
    0xa4beea44; 0x4bdecfa9; 0xf6bb4b60; 0xbebfbc70;
    0x289b7ec6; 0xeaa127fa; 0xd4ef3085; 0x04881d05;
    0xd9d4d039; 0xe6db99e5; 0x1fa27cf8; 0xc4ac5665;
    0xf4292244; 0x432aff97; 0xab9423a7; 0xfc93a039;
    0x655b59c3; 0x8f0ccc92; 0xffeff47d; 0x85845dd1;
    0x6fa87e4f; 0xfe2ce6e0; 0xa3014314; 0x4e0811a1;
    0xf7537e82; 0xbd3af235; 0x2ad7d2bb; 0xeb86d391 ].

Definition shifts : list Z :=
  [ 7; 12; 17; 22; 7; 12; 17; 22; 7; 12; 17; 22; 7; 12; 17; 22;
    5; 9; 14; 20; 5; 9; 14; 20; 5; 9; 14; 20; 5; 9; 14; 20;
    4; 11; 16; 23; 4; 11; 16; 23; 4; 11; 16; 23; 4; 11; 16; 23;
    6; 10; 15; 21; 6; 10; 15; 21; 6; 10; 15; 21; 6; 10; 15; 21 ].

Record state := { sa : Z; sb : Z; sc : Z; sd : Z }.

Definition init : state :=
  {| sa := 0x67452301; sb := 0xefcdab89; sc := 0x98badcfe; sd := 0x10325476 |}.

(** The four bytes of a 32-bit word, least significant first, and back. *)
Definition le_bytes (w : Z) : list Z :=
  [ w mod 256; (w / 256) mod 256; (w / 65536) mod 256; (w / 16777216) mod 256 ].

Fixpoint le_words (bs : list Z) : list Z :=
  match bs with
  | b0 :: b1 :: b2 :: b3 :: r =>
      (b0 + 256 * b1 + 65536 * b2 + 16777216 * b3) :: le_words r
  | _ => []
  end.

(** One of the 64 operations on the block [m]. *)
Definition step (m : list Z) (s : state) (i : nat) : state :=
  let '(Build_state a b c d) := s in
  let iz := Z.of_nat i in
  let '(f, g) :=
    if iz <? 16 then (Z.lor (Z.land b c) (Z.land (not32 b) d), iz)
    else if iz <? 32 then (Z.lor (Z.land d b) (Z.land (not32 d) c), (5 * iz + 1) mod 16)
    else if iz <? 48 then (Z.lxor (Z.lxor b c) d, (3 * iz + 5) mod 16)
    else (Z.lxor c (Z.lor b (not32 d)), (7 * iz) mod 16) in
  let f' := mask32 (f + a + nth i K 0 + nth (Z.to_nat g) m 0) in
  {| sa := d; sb := mask32 (b + rotl f' (nth i shifts 0)); sc := b; sd := c |}.

Definition compress (s : state) (m : list Z) : state :=
  let t := fold_left (step m) (seq 0 64) s in
  {| sa := mask32 (sa s + sa t); sb := mask32 (sb s + sb t);
     sc := mask32 (sc s + sc t); sd := mask32 (sd s + sd t) |}.

(** The message followed by 0x80, zeros up to 56 modulo 64, and its length
    in bits on 64 bits. *)
Definition pad (msg : list Z) : list Z :=
  let n := Z.of_nat (length msg) in
  let zeros := Z.to_nat ((55 - n) mod 64) in
  let bits := (8 * n) mod 18446744073709551616 in
  msg ++ [128] ++ repeat 0 zeros
      ++ le_bytes (bits mod 4294967296) ++ le_bytes (bits / 4294967296).

(** The 16-word blocks of a padded message; [n] bounds their number. *)
Fixpoint blocks (n : nat) (ws : list Z) : list (list Z) :=
  match n with
  | O => []
  | S n' =>
      match ws with
      | [] => []
      | _ => firstn 16 ws :: blocks n' (skipn 16 ws)
      end
  end.

Definition digest_words (msg : list Z) : list Z :=
  let ws := le_words (pad msg) in
  let s := fold_left compress (blocks (length ws) ws) init in
  [sa s; sb s; sc s; sd s].

Definition hex_digit (n : Z) : N :=
  if n <? 10 then Z.to_N (48 + n) else Z.to_N (87 + n).

Definition hex_byte (b : Z) : str := [hex_digit (b / 16 mod 16); hex_digit (b mod 16)].

(** [hashlib.md5(msg).hexdigest()] *)
Definition hexdigest (msg : list Z) : str :=
  flat_map hex_byte (flat_map le_bytes (digest_words msg)).
End MD5.

(** [s.encode()]: UTF-8; a surrogate makes it raise. *)
Definition encode_cp (c : N) : list Z :=
  let z := Z.of_N c in
  (if z <? 128 then [z]
   else if z <? 2048 then [192 + z / 64; 128 + z mod 64]
   else if z <? 65536 then [224 + z / 4096; 128 + (z / 64) mod 64; 128 + z mod 64]
   else [240 + z / 262144; 128 + (z / 4096) mod 64; 128 + (z / 64) mod 64; 128 + z mod 64])%Z.

Definition encode (s : str) : result (list Z) :=
  if forallb is_scalar s then Ok (flat_map encode_cp s) else Raise.

Definition md5_ascii (s : string) : str := MD5.hexdigest (flat_map encode_cp (u s)).

(** ** Values of [json.loads] and the Python operations the program uses *)

#[local] Set Warnings "-register-all".

Inductive json : Type :=
| JNull
| JBool (b : bool)
| JInt (z : Z)
| JFloat (f : spec_float)
| JStr (s : str)
| JArr (l : list json)
| JObj (m : list (str * json)).

(** A dict keeps its keys in insertion order; a key occurs once. *)
Definition dict (A : Type) := list (str * A).

Fixpoint dict_get {A} (m : dict A) (k : str) : option A :=
  match m with
  | [] => None
  | (k', v) :: m' => if str_eqb k' k then Some v else dict_get m' k
  end.

Fixpoint dict_set {A} (m : dict A) (k : str) (v : A) : dict A :=
  match m with
  | [] => [(k, v)]
  | (k', v') :: m' =>
      if str_eqb k' k then (k', v) :: m' else (k', v') :: dict_set m' k v
  end.

Definition dict_get_default {A} (m : dict A) (k : str) (default : A) : A :=
  match dict_get m k with
  | Some v => v
  | None => default
  end.

(** [bool(v)], the test behind [if v] and [not v] *)
Definition truthy (v : json) : bool :=
  match v with
  | JNull => false
  | JBool b => b
  | JInt z => negb (z =? 0)%Z
  | JFloat (S754_zero _) => false
  | JFloat _ => true
  | JStr s => negb (str_eqb s [])
  | JArr l => match l with [] => false | _ => true end
  | JObj m => match m with [] => false | _ => true end
  end.

(** [d.get(k, default)]: only a dict has the method. *)
Definition get (d : json) (k : str) (default : json) : result json :=
  match d with
  | JObj m => Ok (dict_get_default m k default)
  | _ => Raise
  end.

(** [table.get(key, default)] on a dict with string keys: a list or a dict
    cannot be hashed, and no other value equals a string. *)
Definition table_get (table : dict str) (key : json) (default : str) : result str :=
  match key with
  | JArr _ | JObj _ => Raise
  | JStr s => Ok (dict_get_default table s default)
  | _ => Ok default
  end.

(** [len(v)] *)
Definition len (v : json) : result nat :=
  match v with
  | JStr s => Ok (length s)
  | JArr l => Ok (length l)
  | JObj m => Ok (length m)
  | _ => Raise
  end.

(** [v[:n]] *)
Definition slice_to (n : nat) (v : json) : result json :=
  match v with
  | JStr s => Ok (JStr (firstn n s))
  | JArr l => Ok (JArr (firstn n l))
  | _ => Raise
  end.

(** The receiver of a [str] method: anything else has no such attribute. *)
Definition as_str (v : json) : result str :=
  match v with
  | JStr s => Ok s
  | _ => Raise
  end.

(** ** The runtime around the program *)

(** What a call of [json.loads] does: it returns a value, it raises
    [json.JSONDecodeError], or it raises something else ([RecursionError] on
    deep nesting, [ValueError] on an integer of too many digits). *)
Inductive loaded : Type :=
| Loaded (v : json)
| JSONDecodeError
| OtherError.

Class Runtime : Type := {
  (** [re.findall] with the sitemap pattern of [get_product_urls] *)
  re_findall_loc : str -> list str;
  (** [re.findall] with the script pattern of [extract_product_jsonld] *)
  re_findall_ldjson : str -> list str;
  (** [json.loads] *)
  json_loads : str -> loaded;
  (** [re.finditer] with the [og:] pattern: the two groups of every match *)
  re_finditer_og : str -> list (str * str);
  (** [re.search] with the description pattern: group 1 of the match *)
  re_search_description : str -> option str;
  (** [html.unescape] *)
  unescape : str -> str;
  (** [str(v)] of a value that is not a string *)
  repr : json -> str;
  (** what [str.lower] writes for the code point at a position of a string,
      when that code point is not ASCII *)
  unicode_lower : str -> nat -> str;
  (** [list.sort(key)] when not every key is a string *)
  sort_mixed : forall A : Type, (A -> json) -> list A -> result (list A)
}.

(** [str(v)], also what an f-string writes for [{v}] *)
Definition py_str `{Runtime} (v : json) : str :=
  match v with
  | JStr s => s
  | _ => repr v
  end.

(** [s.lower()] *)
Definition ascii_lower (c : N) : N :=
  if (65 <=? c) && (c <=? 90) then c + 32 else c.

Fixpoint lower_from `{Runtime} (whole : str) (i : nat) (s : str) : str :=
  match s with
  | [] => []
  | c :: s' =>
      (if c <? 128 then [ascii_lower c] else unicode_lower whole i)
        ++ lower_from whole (S i) s'
  end.

Definition lower `{Runtime} (s : str) : str := lower_from s 0 s.

(** ** urllib: what [Request(url)] accepts

    [Request] unwraps the URL, cuts the fragment off and raises [ValueError]
    when what is left does not start with a scheme, that is with one or more
    characters other than [/] and [:] followed by [:]. *)

Definition unwrap (url : str) : str :=
  let url := strip url in
  let url :=
    if str_eqb (firstn 1 url) (u "<") && str_eqb (skipn (length url - 1) url) (u ">")
    then strip (removelast (skipn 1 url)) else url in
  if str_eqb (firstn 4 url) (u "URL:") then strip (skipn 4 url) else url.

(** [url.rpartition('#')[0]] when there is a [#], else [url] *)
Fixpoint before_last (c : N) (s : str) : option str :=
  match s with
  | [] => None
  | x :: s' =>
      match before_last c s' with
      | Some r => Some (x :: r)
      | None => if x =? c then Some [] else None
      end
  end.

Definition splittag (url : str) : str :=
  match before_last 35 url with
  | Some path => path
  | None => url
  end.

Definition is_scheme_char (c : N) : bool := negb ((c =? 47) || (c =? 58)).

Fixpoint scheme_rest (s : str) : str :=
  match s with
  | [] => []
  | c :: s' => if is_scheme_char c then scheme_rest s' else s
  end.

Definition has_type (url : str) : bool :=
  match url with
  | c :: _ => is_scheme_char c && startswith (u ":") (scheme_rest url)
  | [] => false
  end.

Definition request_ok (url : str) : bool := has_type (splittag (unwrap url)).

(** ** fetch_url

    [resp n] is what the [n]-th [urlopen] of this call answers: the decoded
    body, or [None] when it raises. *)

Fixpoint fetch_attempts (url : str) (resp : nat -> option str)
    (attempt remaining : nat) : option str :=
  match remaining with
  | O => None
  | S r =>
      match (if request_ok url then resp attempt else None) with
      | Some body => Some body
      | None => fetch_attempts url resp (S attempt) r
      end
  end.

Definition fetch_url (resp : nat -> option str) (url : str) : option str :=
  let retries := 2%nat in
  fetch_attempts url resp 0 (retries + 1).

(** ** The product extractor *)

Section Extractor.
Context `{Runtime}.

(** [v == "..."] for a string literal *)
Definition eq_str (v : json) (s : str) : bool :=
  match v with
  | JStr s' => str_eqb s' s
  | _ => false
  end.

(** The loop of [extract_product_jsonld] over the script blocks: a block on
    which [json.loads] raises [JSONDecodeError] is skipped; any other
    exception of [json.loads], and [data.get] on a parsed value that is not
    a dict, are not caught there. *)
Fixpoint first_product (blocks : list str) : result (option json) :=
  match blocks with
  | [] => Ok None
  | block :: rest =>
      let clean := replace [13] (u " ") (replace [10] (u " ") block) in
      match json_loads clean with
      | JSONDecodeError => first_product rest
      | OtherError => Raise
      | Loaded data =>
          ty <- get data (u "@type") JNull ;;
          if eq_str ty (u "Product") then Ok (Some data) else first_product rest
      end
  end.

Definition extract_product_jsonld (html : str) : result (option json) :=
  first_product (re_findall_ldjson html).

Definition extract_og_tags (html : str) : dict str :=
  let tags :=
    fold_left (fun tags m => dict_set tags (fst m) (unescape (snd m)))
              (re_finditer_og html) [] in
  match re_search_description html with
  | Some d => dict_set tags (u "meta_description") (unescape d)
  | None => tags
  end.

Definition solar_panels : str :=
  u "Hardware > Power & Electrical Supplies > Solar Panels".
Definition power_storage_batteries : str :=
  u "Hardware > Power & Electrical Supplies > Power Storage Batteries".
Definition motor_vehicle_charging : str :=
  u "Vehicles & Parts > Vehicle Parts & Accessories > Motor Vehicle Electronics > Motor Vehicle Charging".
Definition electrical_wires_cable : str :=
  u "Hardware > Power & Electrical Supplies > Electrical Wires & Cable".
Definition solar_energy_kits : str :=
  u "Hardware > Power & Electrical Supplies > Solar Energy Kits".
Definition power_inverters : str :=
  u "Hardware > Power & Electrical Supplies > Power Inverters".

Definition map_google_category (url : str) : str :=
  let path := lower url in
  if contains (u "solar-panel") path || contains (u "gunes-paneli") path
  then solar_panels
  else if contains (u "lityum-pil") path
          || contains (u "batarya") path
          || contains (u "reserva") path
          || contains (u "enerji-depolama") path
  then power_storage_batteries
  else if contains (u "sarj-cihazi") path
          || contains (u "wattpilot") path
          || contains (u "sarj-kablosu") path
          || contains (u "ev-sarj") path
  then motor_vehicle_charging
  else if contains (u "solar-kablo") path || contains (u "konnektor") path
          || contains (u "kablo") path
  then electrical_wires_cable
  else if contains (u "solar-malzeme") path || contains (u "pano") path
          || contains (u "sigorta") path
  then solar_energy_kits
  else power_inverters.

(** The dict that [scrape_product] builds.  A field the code computes as a
    string is a [str]; a field it copies from the JSON-LD document holds
    whatever value the document has there. *)
Record product : Type := {
  id : json;
  title : json;
  description : str;
  link : str;
  image_link : json;
  price : str;
  availability : str;
  condition : str;
  brand : json;
  mpn : json;
  gtin : json;
  category : json;
  google_category : str
}.

Definition avail_map : dict str :=
  [ (u "https://schema.org/InStock", u "in_stock");
    (u "https://schema.org/OutOfStock", u "out_of_stock");
    (u "https://schema.org/PreOrder", u "preorder");
    (u "http://schema.org/InStock", u "in_stock");
    (u "http://schema.org/OutOfStock", u "out_of_stock") ].

Definition cond_map : dict str :=
  [ (u "https://schema.org/NewCondition", u "new");
    (u "http://schema.org/NewCondition", u "new");
    (u "https://schema.org/UsedCondition", u "used");
    (u "https://schema.org/RefurbishedCondition", u "refurbished") ].

(** [url.rstrip("/").split("/")[-1]] *)
Definition slug (url : str) : str := last (split 47 (rstrip (u "/") url)) [].

(** Lines 136 to 138: an [id] of more than 50 characters is cut. *)
Definition shorten_id (i : json) : result json :=
  n <- len i ;;
  if (50 <? n)%nat then
    s <- as_str i ;;
    bytes <- encode s ;;
    let h := firstn 8 (MD5.hexdigest bytes) in
    Ok (JStr (firstn 41 s ++ u "-" ++ h))
  else Ok i.

(** Lines 93 to 140: the record as it stands before the final check. *)
Definition candidate (jsonld : json) (og : dict str) (url : str) : result product :=
  offers <- get jsonld (u "offers") (JObj []) ;;
  price_v <- get offers (u "price") (JStr []) ;;
  currency <- get offers (u "priceCurrency") (JStr (u "TRY")) ;;
  availability_v <- get offers (u "availability") (JStr []) ;;
  g_availability <- table_get avail_map availability_v (u "in_stock") ;;
  item_condition <- get offers (u "itemCondition") (JStr []) ;;
  g_condition <- table_get cond_map item_condition (u "new") ;;
  sku <- get jsonld (u "sku") (JStr []) ;;
  name <- get jsonld (u "name") (JStr (dict_get_default og (u "title") [])) ;;
  desc <- get jsonld (u "description") (JStr []) ;;
  desc_s <- as_str (if truthy desc then desc
                    else JStr (dict_get_default og (u "meta_description") [])) ;;
  image <- get jsonld (u "image") (JStr (dict_get_default og (u "image") [])) ;;
  brand_v <- get jsonld (u "brand") (JObj []) ;;
  brand_name <- get brand_v (u "name") (JStr []) ;;
  mpn_v <- get jsonld (u "mpn") (JStr []) ;;
  gtin_v <- get jsonld (u "gtin") (JStr []) ;;
  gtin13 <- get jsonld (u "gtin13") gtin_v ;;
  category_v <- get jsonld (u "category") (JStr []) ;;
  let id0 := if truthy sku then sku else JStr (slug url) in
  id1 <- shorten_id id0 ;;
  Ok {| id := id1;
        title := name;
        description := firstn 5000 (strip desc_s);
        link := url;
        image_link := image;
        price := if truthy price_v
                 then py_str price_v ++ u " " ++ py_str currency else [];
        availability := g_availability;
        condition := g_condition;
        brand := brand_name;
        mpn := mpn_v;
        gtin := gtin13;
        category := category_v;
        google_category := map_google_category url |}.

(** Line 142: [not product["title"] or not product["price"]] *)
Definition rejected (p : product) : bool :=
  negb (truthy (title p)) || negb (truthy (JStr (price p))).

Definition scrape_product (resp : nat -> option str) (url : str)
  : result (option product) :=
  match fetch_url resp url with
  | None => Ok None
  | Some html =>
      if negb (truthy (JStr html)) then Ok None
      else
        found <- extract_product_jsonld html ;;
        let og := extract_og_tags html in
        match found with
        | None => Ok None
        | Some jsonld =>
            if negb (truthy jsonld) then Ok None
            else
              p <- candidate jsonld og url ;;
              if rejected p then Ok None else Ok (Some p)
        end
  end.
End Extractor.

(** ** The feed serializer *)

Section Serializer.
Context `{Runtime}.

Definition escape_xml (text : json) : str :=
  if negb (truthy text) then []
  else
    replace (u "'") (u "&apos;")
      (replace [34] (u "&quot;")
        (replace (u ">") (u "&gt;")
          (replace (u "<") (u "&lt;")
            (replace (u "&") (u "&amp;") (py_str text))))).

Definition element (indent tag : str) (content : str) : str :=
  indent ++ u "<" ++ tag ++ u ">" ++ content ++ u "</" ++ tag ++ u ">".

Definition header : list str :=
  [ u "<?xml version=" ++ [34] ++ u "1.0" ++ [34] ++ u " encoding="
      ++ [34] ++ u "UTF-8" ++ [34] ++ u "?>";
    u "<rss version=" ++ [34] ++ u "2.0" ++ [34] ++ u " xmlns:g="
      ++ [34] ++ u "http://base.google.com/ns/1.0" ++ [34] ++ u ">";
    u "  <channel>";
    u "    <title>T" ++ [252] ++ u "rkiye Solar Market - " ++ [220]
      ++ u "r" ++ [252] ++ u "n Katalo" ++ [287] ++ u "u</title>";
    u "    <link>https://www.turkiyesolarmarket.com.tr</link>";
    u "    <description>Solar enerji ekipmanlar" ++ [305]
      ++ u " - inverter, panel, pil, " ++ [351] ++ u "arj cihaz" ++ [305]
      ++ u "</description>" ].

Definition footer : list str := [ u "  </channel>"; u "</rss>" ].

Definition identifier_exists_line : str :=
  u "      <g:identifier_exists>false</g:identifier_exists>".

(** The lines one turn of the loop appends.  [p['title'][:150]] raises on
    a title that cannot be sliced. *)
Definition item (p : product) : result (list str) :=
  let ind := u "      " in
  title150 <- slice_to 150 (title p) ;;
  Ok ([ u "    <item>";
        element ind (u "g:id") (escape_xml (id p));
        element ind (u "g:title") (escape_xml title150);
        element ind (u "g:description")
                (escape_xml (JStr (firstn 5000 (description p))));
        element ind (u "g:link") (escape_xml (JStr (link p)));
        element ind (u "g:image_link") (escape_xml (image_link p));
        element ind (u "g:price") (escape_xml (JStr (price p)));
        element ind (u "g:availability") (availability p);
        element ind (u "g:condition") (condition p) ]
      ++ (if truthy (brand p)
          then [ element ind (u "g:brand") (escape_xml (brand p)) ] else [])
      ++ (if truthy (mpn p)
          then [ element ind (u "g:mpn") (escape_xml (mpn p)) ] else [])
      ++ (if truthy (gtin p)
          then [ element ind (u "g:gtin") (escape_xml (gtin p)) ]
          else [ identifier_exists_line ])
      ++ [ element ind (u "g:google_product_category")
                   (escape_xml (JStr (google_category p)));
           u "    </item>" ]).

(** The [for p in products] loop, [lines] being the list it appends to. *)
Fixpoint feed_loop (products : list product) (lines : list str)
  : result (list str) :=
  match products with
  | [] => Ok lines
  | p :: rest =>
      block <- item p ;;
      feed_loop rest (lines ++ block)
  end.

Definition generate_feed (products : list product) : result str :=
  lines <- feed_loop products header ;;
  Ok (join [10] (lines ++ footer)).
End Serializer.

(** ** list.sort

    Python's sort is stable and compares with [<] only.  Insertion from the
    right places an element in front of the first one that is not smaller,
    which gives the one stable order. *)

Section Sort.
Variables (A K : Type) (ltb : K -> K -> bool) (key : A -> K).

Fixpoint insert_by (x : A) (l : list A) : list A :=
  match l with
  | [] => [x]
  | y :: l' => if ltb (key y) (key x) then y :: insert_by x l' else x :: l
  end.

Definition stable_sort (l : list A) : list A := fold_right insert_by [] l.
End Sort.

Definition is_str (v : json) : bool :=
  match v with
  | JStr _ => true
  | _ => false
  end.

Definition text_of (v : json) : str :=
  match v with
  | JStr s => s
  | _ => []
  end.

(** [l.sort(key=...)]: string keys are compared by code point; a list of at
    most one element needs no comparison. *)
Definition list_sort `{Runtime} {A : Type} (key : A -> json) (l : list A)
  : result (list A) :=
  if forallb (fun x => is_str (key x)) l
  then Ok (stable_sort str_ltb (fun x => text_of (key x)) l)
  else if (length l <=? 1)%nat then Ok l
  else sort_mixed key l.

(** ** main *)

(** The world of one run: [urlopen c n] answers the [n]-th attempt of the
    [c]-th call of [fetch_url] (call 0 fetches the sitemap, call [i + 1] the
    [i]-th product page); [finish_time i] orders the completion of the
    [i]-th future. *)
Record world : Type := {
  urlopen : nat -> nat -> option str;
  finish_time : nat -> nat
}.

(** What a run leaves behind.  [written] is the text that [f.write] is given
    for [merchant-feed.xml], if the run gets that far.  [file] is what the
    run does to the file itself: [None] when the run does not open it, else
    the bytes it holds afterwards; they are the UTF-8 encoding of the text,
    or nothing when the text has no such encoding, since [open] has emptied
    the file by the time [f.write] raises.  [stdout] keeps the printed lines
    that have a fixed text; the lines that report counts are left out. *)
Record outcome : Type := {
  exit_code : Z;
  written : option str;
  file : option (list Z);
  stdout : list str
}.

Section Main.
Context `{Runtime}.

Definition SITEMAP_URL : str := u "https://www.turkiyesolarmarket.com.tr/sitemap.xml".

Definition banner : list str :=
  [ u "=== Google Merchant Center Feed Generator ==="; [] ].

(** [None] is [sys.exit(1)]. *)
Definition get_product_urls (w : world) : option (list str) :=
  match fetch_url (urlopen w 0) SITEMAP_URL with
  | None => None
  | Some content =>
      if negb (truthy (JStr content)) then None
      else Some (re_findall_loc content)
  end.

(** The futures, in the order [as_completed] yields them. *)
Definition as_completed (w : world) (urls : list str)
  : list (result (option product)) :=
  let futures :=
    map (fun iu => (fst iu, scrape_product (urlopen w (S (fst iu))) (snd iu)))
        (combine (seq 0 (length urls)) urls) in
  map snd (stable_sort Nat.ltb (fun f => finish_time w (fst f)) futures).

(** The loop over the completed futures: [products] and [errors]. *)
Fixpoint tally (done : list (result (option product)))
    (products : list product) (errors : nat) : list product * nat :=
  match done with
  | [] => (products, errors)
  | Ok (Some p) :: rest => tally rest (products ++ [p]) errors
  | Ok None :: rest => tally rest products (S errors)
  | Raise :: rest => tally rest products (S errors)
  end.

(** The brand count of the summary: [brands.get(b, 0)] raises on a brand
    that cannot be hashed. *)
Definition count_brands (products : list product) : result unit :=
  if forallb (fun p => match brand p with
                       | JArr (_ :: _) | JObj (_ :: _) => false
                       | _ => true
                       end) products
  then Ok tt else Raise.

(** Lines 262 to 285, from the sort on.  An exception that nothing catches
    ends the process with exit code 1; [f.write] raises one when the text
    cannot be encoded in UTF-8. *)
Definition finish (products : list product) : outcome :=
  match list_sort title products with
  | Raise => {| exit_code := 1; written := None; file := None; stdout := banner |}
  | Ok products =>
      match generate_feed products with
      | Raise =>
          {| exit_code := 1; written := None; file := None; stdout := banner |}
      | Ok xml_content =>
          match encode xml_content with
          | Raise =>
              {| exit_code := 1; written := Some xml_content; file := Some [];
                 stdout := banner |}
          | Ok bytes =>
              let out := banner ++ [ u "Feed saved to merchant-feed.xml" ] in
              match count_brands products with
              | Raise =>
                  {| exit_code := 1; written := Some xml_content;
                     file := Some bytes; stdout := out |}
              | Ok _ =>
                  let out := out ++ [ [10] ++ u "=== Summary ===" ] in
                  if (length products <? 10)%nat
                  then {| exit_code := 1; written := Some xml_content;
                          file := Some bytes;
                          stdout := out ++ [ u "ERROR: Too few products scraped, feed not saved" ] |}
                  else {| exit_code := 0; written := Some xml_content;
                          file := Some bytes; stdout := out |}
              end
          end
      end
  end.

Definition main (w : world) : outcome :=
  match get_product_urls w with
  | None => {| exit_code := 1; written := None; file := None;
               stdout := banner ++ [ u "ERROR: Could not fetch sitemap" ] |}
  | Some urls =>
      let '(products, errors) := tally (as_completed w urls) [] 0 in
      finish products
  end.
End Main.

(** ** What reading the feed back does to escaped text

    The program has no reader of its own; what follows is XML 1.0.
    [xml_unescape] decodes the five predefined entity references and does
    nothing else.  A parser does more.  It accepts a text between two tags
    only when the text is character data, [chardata]: every character is
    one that the production Char allows, there is no [<], every [&] begins
    one of the five references and the sequence []]>] does not occur.  And
    before it decodes anything it turns a carriage return, with the line
    feed that may follow it, into a line feed: [normalize_eol].  [xml_read]
    is what a parser hands back for the text between two tags, [None] when
    the document is not well-formed there. *)

Definition esc_char (c : N) : str :=
  if c =? 38 then u "&amp;"
  else if c =? 60 then u "&lt;"
  else if c =? 62 then u "&gt;"
  else if c =? 34 then u "&quot;"
  else if c =? 39 then u "&apos;"
  else [c].

Definition entities : list (str * N) :=
  [ (u "&amp;", 38); (u "&lt;", 60); (u "&gt;", 62); (u "&quot;", 34); (u "&apos;", 39) ].

Fixpoint find_entity (es : list (str * N)) (s : str) : option (N * nat) :=
  match es with
  | [] => None
  | (name, c) :: es' =>
      if startswith name s then Some (c, length name) else find_entity es' s
  end.

Fixpoint unescape_from (skip : nat) (s : str) : str :=
  match s with
  | [] => []
  | c :: s' =>
      match skip with
      | S k => unescape_from k s'
      | O =>
          match find_entity entities s with
          | Some (ch, n) => ch :: unescape_from (Nat.pred n) s'
          | None => c :: unescape_from O s'
          end
      end
  end.

Definition xml_unescape (s : str) : str := unescape_from O s.

Fixpoint chardata_from (skip : nat) (s : str) : bool :=
  match s with
  | [] => true
  | c :: s' =>
      match skip with
      | S k => chardata_from k s'
      | O =>
          match find_entity entities s with
          | Some (_, n) => chardata_from (Nat.pred n) s'
          | None => negb (c =? 60) && negb (c =? 38) && chardata_from O s'
          end
      end
  end.

(** The production Char of XML 1.0. *)
Definition xml_char (c : N) : bool :=
  (c =? 9) || (c =? 10) || (c =? 13)
  || ((32 <=? c) && (c <=? 55295))
  || ((57344 <=? c) && (c <=? 65533))
  || ((65536 <=? c) && (c <=? 1114111)).

Definition chardata (s : str) : bool :=
  forallb xml_char s && negb (contains (u "]]>") s) && chardata_from O s.

(** End-of-line handling: [after_cr] tells that the character before was a
    carriage return, which has been turned into a line feed already. *)
Fixpoint normalize_eol (after_cr : bool) (s : str) : str :=
  match s with
  | [] => []
  | c :: s' =>
      if c =? 13 then 10 :: normalize_eol true s'
      else if (c =? 10) && after_cr then normalize_eol false s'
      else c :: normalize_eol false s'
  end.

Definition xml_read (s : str) : option str :=
  if chardata s then Some (xml_unescape (normalize_eol false s)) else None.

(** ** Definitions used by the statements *)

(** The rule as the specification words it: an ordered list of pattern
    groups, each with its category; the first group with a pattern that
    occurs in the path decides. *)
Definition classification_rules : list (list str * str) :=
  [ ([u "solar-panel"; u "gunes-paneli"], solar_panels);
    ([u "lityum-pil"; u "batarya"; u "reserva"; u "enerji-depolama"],
     power_storage_batteries);
    ([u "sarj-cihazi"; u "wattpilot"; u "sarj-kablosu"; u "ev-sarj"],
     motor_vehicle_charging);
    ([u "solar-kablo"; u "konnektor"; u "kablo"], electrical_wires_cable);
    ([u "solar-malzeme"; u "pano"; u "sigorta"], solar_energy_kits) ].

Fixpoint first_match (rules : list (list str * str)) (path default : str) : str :=
  match rules with
  | [] => default
  | (patterns, cat) :: rest =>
      if existsb (fun p => contains p path) patterns then cat
      else first_match rest path default
  end.

Definition availability_values : list str :=
  [ u "in_stock"; u "out_of_stock"; u "preorder" ].

Definition condition_values : list str :=
  [ u "new"; u "used"; u "refurbished" ].


Ltac bind_inv H :=
  repeat match type of H with
         | bind ?r _ = Ok _ =>
             let v := fresh "v" in
             let E := fresh "E" in
             destruct r as [v|] eqn:E; cbn [bind] in H; [|discriminate H]
         end.



Definition emits (tag : str) (lines : list str) : bool :=
  existsb (startswith (u "      <" ++ tag ++ u ">")) lines.

(** ** A sample run

    Three product URLs in the sitemap: the first page carries a complete
    product and answers at the second attempt, the second page carries a
    product without a price, the third page cannot be fetched. *)

Definition sample_url (name : string) : str :=
  u "https://www.turkiyesolarmarket.com.tr/urunler/" ++ u name.

Definition sample_offer (fields : list (str * json)) : json :=
  JObj ((u "@type", JStr (u "Offer")) :: fields).

Definition sample_inverter : json :=
  JObj [ (u "@type", JStr (u "Product"));
         (u "name", JStr (u "Fronius Symo 10.0-3-M <10 kW>"));
         (u "sku", JStr (u "FRO-SYMO-10"));
         (u "description", JStr (u "  Three-phase inverter & data manager  "));
         (u "image", JStr (u "https://www.turkiyesolarmarket.com.tr/img/symo.jpg"));
         (u "brand", JObj [ (u "@type", JStr (u "Brand")); (u "name", JStr (u "Fronius")) ]);
         (u "gtin13", JStr (u "9006144025193"));
         (u "offers",
          sample_offer
            [ (u "price", JStr (u "84500.00"));
              (u "priceCurrency", JStr (u "TRY"));
              (u "availability", JStr (u "https://schema.org/InStock"));
              (u "itemCondition", JStr (u "https://schema.org/NewCondition")) ]) ].

Definition sample_cable : json :=
  JObj [ (u "@type", JStr (u "Product"));
         (u "name", JStr (u "Solar kablo 6 mm"));
         (u "offers", sample_offer [ (u "priceCurrency", JStr (u "TRY")) ]) ].

Definition sample_preorder (scheme : string) : json :=
  JObj [ (u "@type", JStr (u "Product"));
         (u "name", JStr (u "Wattpilot Go 22 J"));
         (u "offers",
          sample_offer
            [ (u "price", JStr (u "31900.00"));
              (u "availability", JStr (u scheme ++ u "://schema.org/PreOrder")) ]) ].

Definition sample_runtime : Runtime :=
  {| re_findall_loc := fun content =>
       if str_eqb content (u "sitemap")
       then [ sample_url "fronius-symo-10"; sample_url "solar-kablo-6mm";
              sample_url "huawei-sun2000" ]
       else [];
     re_findall_ldjson := fun html => [html];
     json_loads := fun text =>
       if str_eqb text (u "page of the inverter") then Loaded sample_inverter
       else if str_eqb text (u "page of the cable") then Loaded sample_cable
       else JSONDecodeError;
     re_finditer_og := fun _ => [];
     re_search_description := fun _ => None;
     unescape := fun s => s;
     repr := fun _ => [];
     unicode_lower := fun whole i => firstn 1 (skipn i whole);
     sort_mixed := fun _ _ _ => Raise |}.

Definition sample_world : world :=
  {| urlopen := fun call attempt =>
       match call, attempt with
       | 0%nat, _ => Some (u "sitemap")
       | 1%nat, 0%nat => None
       | 1%nat, _ => Some (u "page of the inverter")
       | 2%nat, _ => Some (u "page of the cable")
       | _, _ => None
       end;
     finish_time := fun i => (3 - i)%nat |}.

Definition sample_record : product :=
  {| id := JStr (u "FRO-SYMO-10");
     title := JStr (u "Fronius Symo 10.0-3-M <10 kW>");
     description := u "Three-phase inverter & data manager";
     link := sample_url "fronius-symo-10";
     image_link := JStr (u "https://www.turkiyesolarmarket.com.tr/img/symo.jpg");
     price := u "84500.00 TRY";
     availability := u "in_stock";
     condition := u "new";
     brand := JStr (u "Fronius");
     mpn := JStr [];
     gtin := JStr (u "9006144025193");
     category := JStr [];
     google_category := power_inverters |}.

Definition sample_cable_candidate : product :=
  {| id := JStr (u "solar-kablo-6mm");
     title := JStr (u "Solar kablo 6 mm");
     description := [];
     link := sample_url "solar-kablo-6mm";
     image_link := JStr [];
     price := [];
     availability := u "in_stock";
     condition := u "new";
     brand := JStr [];
     mpn := JStr [];
     gtin := JStr [];
     category := JStr [];
     google_category := electrical_wires_cable |}.

Definition sample_panel : product :=
  {| id := JStr (u "AXI-450");
     title := JStr (u "Axitec AXIpremium 450 W");
     description := u "Monocrystalline module";
     link := sample_url "axitec-450w-solar-panel";
     image_link := JStr [];
     price := u "5200 TRY";
     availability := u "preorder";
     condition := u "new";
     brand := JStr (u "Axitec");
     mpn := JStr (u "AC-450MH/144V");
     gtin := JStr [];
     category := JStr [];
     google_category := solar_panels |}.

(** ** Definitions used by the further statements *)

(** The text [extract_product_jsonld] hands to [json.loads]. *)
Definition clean (block : str) : str :=
  replace [13] (u " ") (replace [10] (u " ") block).

(** A block the loop of [extract_product_jsonld] passes over: [json.loads]
    raises [JSONDecodeError] on it, or it parses to an object whose [@type]
    is not ["Product"]. *)
Definition passed_over `{Runtime} (block : str) : Prop :=
  json_loads (clean block) = JSONDecodeError
  \/ exists m, json_loads (clean block) = Loaded (JObj m)
               /\ eq_str (dict_get_default m (u "@type") JNull) (u "Product") = false.

(** The content of the last match of the [og:] pattern with the name [k]. *)
Definition last_og (k : str) (matches : list (str * str)) : option str :=
  fold_left (fun acc m => if str_eqb (fst m) k then Some (snd m) else acc)
            matches None.

Definition reserved (c : N) : bool :=
  (c =? 38) || (c =? 60) || (c =? 62) || (c =? 34) || (c =? 39).


(** The rule list without the pattern [solar-kablo]. *)
Definition rules_without_solar_kablo : list (list str * str) :=
  [ ([u "solar-panel"; u "gunes-paneli"], solar_panels);
    ([u "lityum-pil"; u "batarya"; u "reserva"; u "enerji-depolama"],
     power_storage_batteries);
    ([u "sarj-cihazi"; u "wattpilot"; u "sarj-kablosu"; u "ev-sarj"],
     motor_vehicle_charging);
    ([u "konnektor"; u "kablo"], electrical_wires_cable);
    ([u "solar-malzeme"; u "pano"; u "sigorta"], solar_energy_kits) ].

(** A runtime for pages with several script blocks: the blocks of a page
    are the pieces between its [|] characters. *)
Definition sample_runtime_blocks : Runtime :=
  {| re_findall_loc := @re_findall_loc sample_runtime;
     re_findall_ldjson := fun html => split 124 html;
     json_loads := fun text =>
       if str_eqb text (u "[1]") then Loaded (JArr [JInt 1])
       else if str_eqb text (u "{}") then Loaded (JObj [])
       else if str_eqb text (u "an integer of 5000 digits") then OtherError
       else @json_loads sample_runtime text;
     re_finditer_og := fun html =>
       if str_eqb html (u "page with og tags")
       then [ (u "title", u "First title"); (u "image", u "a.jpg");
              (u "title", u "Second title");
              (u "meta_description", u "og text") ]
       else [];
     re_search_description := fun html =>
       if str_eqb html (u "page with og tags") then Some (u "meta text") else None;
     unescape := fun s => s;
     repr := fun _ => [];
     unicode_lower := fun whole i => firstn 1 (skipn i whole);
     sort_mixed := fun _ _ _ => Raise |}.

(** A product with an empty name and an empty gtin13 beside a gtin. *)
Definition sample_nameless : list (str * json) :=
  [ (u "@type", JStr (u "Product"));
    (u "name", JStr []);
    (u "gtin13", JStr []);
    (u "gtin", JStr (u "8690000000017"));
    (u "offers", sample_offer [ (u "price", JStr (u "120")) ]) ].

(** A product whose brand is a plain string. *)
Definition sample_plain_brand : list (str * json) :=
  [ (u "@type", JStr (u "Product"));
    (u "name", JStr (u "Huawei SUN2000-10KTL-M1"));
    (u "brand", JStr (u "Huawei"));
    (u "offers", sample_offer [ (u "price", JStr (u "98000")) ]) ].


(** A second record with the title of [sample_record]. *)
Definition sample_record_again : product :=
  {| id := JStr (u "FRO-SYMO-10-B");
     title := JStr (u "Fronius Symo 10.0-3-M <10 kW>");
     description := [];
     link := sample_url "fronius-symo-10-b";
     image_link := JStr [];
     price := u "83000 TRY";
     availability := u "out_of_stock";
     condition := u "new";
     brand := JStr (u "Fronius");
     mpn := JStr [];
     gtin := JStr [];
     category := JStr [];
     google_category := power_inverters |}.


(** ** A page whose sku is a list

    [json.loads] gives whatever JSON value the page has for [sku]; on this
    page it is a list of one string of 100 characters.  [repr_of_words] is
    what [repr] writes for a list of strings of letters: each string between
    single quotes, a comma and a space between two of them, the whole in
    square brackets. *)

Definition repr_of_words (v : json) : str :=
  match v with
  | JArr l =>
      u "[" ++ join (u ", ")
                 (map (fun x => match x with
                                | JStr s => u "'" ++ s ++ u "'"
                                | _ => []
                                end) l)
        ++ u "]"
  | _ => []
  end.

Definition sample_drum : json :=
  JObj [ (u "@type", JStr (u "Product"));
         (u "name", JStr (u "Solar cable drum"));
         (u "sku", JArr [ JStr (repeat 120 100) ]);
         (u "offers",
          sample_offer
            [ (u "price", JStr (u "1250.00"));
              (u "priceCurrency", JStr (u "TRY")) ]) ].

Definition sample_runtime_words : Runtime :=
  {| re_findall_loc := @re_findall_loc sample_runtime;
     re_findall_ldjson := fun html => [html];
     json_loads := fun text =>
       if str_eqb text (u "page of the drum") then Loaded sample_drum
       else JSONDecodeError;
     re_finditer_og := fun _ => [];
     re_search_description := fun _ => None;
     unescape := fun s => s;
     repr := repr_of_words;
     unicode_lower := fun whole i => firstn 1 (skipn i whole);
     sort_mixed := fun _ _ _ => Raise |}.

Definition sample_drum_record : product :=
  {| id := JArr [ JStr (repeat 120 100) ];
     title := JStr (u "Solar cable drum");
     description := [];
     link := sample_url "solar-cable-drum";
     image_link := JStr [];
     price := u "1250.00 TRY";
     availability := u "in_stock";
     condition := u "new";
     brand := JStr [];
     mpn := JStr [];
     gtin := JStr [];
     category := JStr [];
     google_category := power_inverters |}.

(** * Properties *)

(** ** The model at known values *)

Lemma Ok_inj {A} (a b : A) : Ok a = Ok b -> a = b.
Proof. congruence. Qed.

Example md5_empty : md5_ascii "" = u "d41d8cd98f00b204e9800998ecf8427e".
Proof. vm_compute. reflexivity. Qed.

Example md5_abc : md5_ascii "abc" = u "900150983cd24fb0d6963f7d28e17f72".
Proof. vm_compute. reflexivity. Qed.

Example md5_two_blocks :
  MD5.hexdigest (flat_map encode_cp (repeat 120 120))
  = u "fb98667f98096de92620b64f46e1c5b5".
Proof. vm_compute. reflexivity. Qed.

Example md5_two_byte_characters :
  MD5.hexdigest (flat_map encode_cp (repeat 233 60))
  = u "45698e682c350ba8a3844fb8efbab899".
Proof. vm_compute. reflexivity. Qed.

Example md5_three_and_four_byte_characters :
  MD5.hexdigest (flat_map encode_cp (repeat 8364 10 ++ repeat 128512 3))
  = u "234c3ba4ffbcd44a2f0be5e71dc0ee23".
Proof. vm_compute. reflexivity. Qed.

(** A Turkish sku of 60 characters, cut to 50. *)
Example shorten_id_turkish :
  shorten_id (JStr (repeat 351 60)) = Ok (JStr (repeat 351 41 ++ u "-a2cd5a84")).
Proof. vm_compute. reflexivity. Qed.

(** ** Strings *)

Lemma str_eqb_eq (a b : str) : str_eqb a b = true <-> a = b.
Proof.
  unfold str_eqb. destruct (list_eq_dec N.eq_dec a b); split; congruence.
Qed.

Lemma str_eqb_nil (s : str) : str_eqb s [] = false <-> s <> [].
Proof.
  unfold str_eqb. destruct (list_eq_dec N.eq_dec s []); split; congruence.
Qed.

Lemma truthy_str (s : str) : truthy (JStr s) = true <-> s <> [].
Proof.
  simpl. rewrite negb_true_iff. apply str_eqb_nil.
Qed.

Lemma startswith_app (p s : str) : startswith p (p ++ s) = true.
Proof.
  induction p as [|a p IH]; simpl; [reflexivity|].
  now rewrite N.eqb_refl.
Qed.

Lemma startswith_contains (p s : str) :
  startswith p s = true -> contains p s = true.
Proof.
  intro E. destruct s; simpl; now rewrite E.
Qed.

Lemma contains_app (p a b : str) : contains p (a ++ p ++ b) = true.
Proof.
  induction a as [|x a IH].
  - cbn [app]. apply startswith_contains, startswith_app.
  - simpl. rewrite IH. apply orb_true_r.
Qed.

Lemma replace_char (c : N) (new s : str) :
  replace [c] new s = flat_map (fun x => if x =? c then new else [x]) s.
Proof.
  unfold replace.
  induction s as [|x s IH]; simpl; [reflexivity|].
  rewrite andb_true_r, (N.eqb_sym c x).
  destruct (x =? c); simpl; now rewrite IH.
Qed.

Lemma flat_map_compose {A B C} (f : A -> list B) (g : B -> list C) (l : list A) :
  flat_map g (flat_map f l) = flat_map (fun x => flat_map g (f x)) l.
Proof.
  induction l as [|x l IH]; simpl; [reflexivity|].
  now rewrite flat_map_app, IH.
Qed.

(** ** escape_xml *)

Section EscapeFacts.
Context `{Runtime}.

Lemma escape_xml_chars (s : str) : escape_xml (JStr s) = flat_map esc_char s.
Proof.
  unfold escape_xml.
  destruct (truthy (JStr s)) eqn:T; simpl negb; cbv iota.
  - unfold py_str.
    change (u "'") with [39]. change (u ">") with [62].
    change (u "<") with [60]. change (u "&") with [38].
    rewrite !replace_char, !flat_map_compose.
    apply flat_map_ext. intro c. unfold esc_char.
    destruct (c =? 38) eqn:E1; [apply N.eqb_eq in E1; subst; reflexivity|].
    destruct (c =? 60) eqn:E2; [apply N.eqb_eq in E2; subst; reflexivity|].
    destruct (c =? 62) eqn:E3; [apply N.eqb_eq in E3; subst; reflexivity|].
    destruct (c =? 34) eqn:E4; [apply N.eqb_eq in E4; subst; reflexivity|].
    simpl. rewrite E2. simpl. rewrite E3. simpl. rewrite E4. simpl.
    destruct (c =? 39) eqn:E5; reflexivity.
  - destruct s; [reflexivity | discriminate].
Qed.
End EscapeFacts.


Lemma esc_char_cases (c : N) :
  (c = 38 \/ c = 60 \/ c = 62 \/ c = 34 \/ c = 39)
  \/ (c <> 38 /\ c <> 60 /\ c <> 62 /\ c <> 34 /\ c <> 39 /\ esc_char c = [c]).
Proof.
  unfold esc_char.
  destruct (N.eqb_spec c 38); [tauto|].
  destruct (N.eqb_spec c 60); [tauto|].
  destruct (N.eqb_spec c 62); [tauto|].
  destruct (N.eqb_spec c 34); [tauto|].
  destruct (N.eqb_spec c 39); [tauto|].
  right. repeat split; assumption.
Qed.



(** ** map_google_category *)

Section CategoryFacts.
Context `{Runtime}.

Lemma lower_from_app (whole : str) (a b : str) (i : nat) :
  lower_from whole i (a ++ b)
  = lower_from whole i a ++ lower_from whole (i + length a) b.
Proof.
  revert i. induction a as [|c a IH]; intro i; simpl.
  - now rewrite Nat.add_0_r.
  - rewrite IH, <- app_assoc. do 3 f_equal. lia.
Qed.

Lemma ascii_lower_ascii (c : N) : ascii_lower c < 128 -> c < 128.
Proof.
  unfold ascii_lower.
  destruct ((65 <=? c) && (c <=? 90)) eqn:E; [|trivial].
  apply andb_prop in E. destruct E as [_ E]. apply N.leb_le in E. lia.
Qed.

Lemma lower_from_ascii (whole w : str) (i : nat) :
  Forall (fun c => c < 128) (map ascii_lower w) ->
  lower_from whole i w = map ascii_lower w.
Proof.
  revert i. induction w as [|c w IH]; intros i Hw; simpl; [reflexivity|].
  inversion Hw as [|? ? Hc Hr]; subst.
  apply ascii_lower_ascii, N.ltb_lt in Hc. rewrite Hc. simpl.
  now rewrite IH.
Qed.

Lemma map_google_category_first_match (url : str) :
  map_google_category url
  = first_match classification_rules (lower url) power_inverters.
Proof.
  unfold map_google_category, classification_rules, first_match, existsb.
  cbv zeta. rewrite !orb_false_r, !orb_assoc. reflexivity.
Qed.

Lemma first_match_default (rules : list (list str * str)) (path default : str) :
  (forall patterns cat p,
      In (patterns, cat) rules -> In p patterns -> contains p path = false) ->
  first_match rules path default = default.
Proof.
  induction rules as [|[patterns cat] rules IH]; intro Hno; simpl; [reflexivity|].
  assert (E : existsb (fun p => contains p path) patterns = false).
  { apply not_true_is_false. intro E.
    apply existsb_exists in E. destruct E as (p & Hp & Hc).
    rewrite (Hno patterns cat p) in Hc; [discriminate | now left | exact Hp]. }
  rewrite E. apply IH. intros ps c p Hin. apply (Hno ps c p). now right.
Qed.
End CategoryFacts.

(** C5.  [map_google_category] is the first-match scan of the ordered rule
    list over the lowercased URL, with Power Inverters when no pattern
    occurs.  A URL whose lowercased form contains [solar-panel] is a Solar
    Panels URL whatever else it contains, and so is a URL that contains
    [solar-panel] in any mix of upper and lower case. *)
Theorem classification_first_match `{Runtime} (url : str) :
  map_google_category url
  = first_match classification_rules (lower url) power_inverters
  /\ (contains (u "solar-panel") (lower url) = true ->
      map_google_category url = solar_panels)
  /\ (forall pre w post,
         url = pre ++ w ++ post -> map ascii_lower w = u "solar-panel" ->
         map_google_category url = solar_panels)
  /\ ((forall patterns cat p,
          In (patterns, cat) classification_rules -> In p patterns ->
          contains p (lower url) = false) ->
      map_google_category url = power_inverters).
Proof.
  split; [apply map_google_category_first_match|].
  assert (Hpanel : contains (u "solar-panel") (lower url) = true ->
                   map_google_category url = solar_panels).
  { intro E. unfold map_google_category. cbv zeta. now rewrite E. }
  split; [exact Hpanel|]. split.
  - intros pre w post -> Hw. apply Hpanel.
    unfold lower. rewrite !lower_from_app.
    rewrite (lower_from_ascii _ w).
    + rewrite Hw. apply contains_app.
    + rewrite Hw. repeat constructor.
  - intro Hno. rewrite map_google_category_first_match.
    now apply first_match_default.
Qed.

(** ** The availability and condition tables *)

Lemma dict_get_default_in (table : dict str) (k default : str) :
  In (dict_get_default table k default) (default :: map snd table).
Proof.
  unfold dict_get_default.
  induction table as [|[k' v] table IH]; simpl; [now left|].
  destruct (str_eqb k' k); [right; now left|].
  destruct IH as [IH | IH]; [now left | right; now right].
Qed.

Lemma table_get_in (table : dict str) (key : json) (default v : str) :
  table_get table key default = Ok v -> In v (default :: map snd table).
Proof.
  destruct key; simpl; intro E; inversion E; subst;
    try (now left); apply dict_get_default_in.
Qed.

Lemma avail_map_values (key : json) (v : str) :
  table_get avail_map key (u "in_stock") = Ok v -> In v availability_values.
Proof.
  intro E. apply table_get_in in E. simpl in E. unfold availability_values.
  simpl. intuition.
Qed.

Lemma cond_map_values (key : json) (v : str) :
  table_get cond_map key (u "new") = Ok v -> In v condition_values.
Proof.
  intro E. apply table_get_in in E. simpl in E. unfold condition_values.
  simpl. intuition.
Qed.

(** What the availability table answers, key by key. *)
Lemma avail_map_listed :
  map (fun k => table_get avail_map (JStr (u k)) (u "in_stock"))
      [ "https://schema.org/InStock"; "https://schema.org/OutOfStock";
        "https://schema.org/PreOrder"; "http://schema.org/InStock";
        "http://schema.org/OutOfStock" ]%string
  = map (fun v => Ok (u v))
      [ "in_stock"; "out_of_stock"; "preorder"; "in_stock"; "out_of_stock" ]%string.
Proof. vm_compute. reflexivity. Qed.

Lemma avail_map_unlisted (key : json) :
  (forall k, In k (map fst avail_map) -> key <> JStr k) ->
  table_get avail_map key (u "in_stock") = Ok (u "in_stock")
  \/ table_get avail_map key (u "in_stock") = Raise.
Proof.
  intro Hk. destruct key; simpl; auto. left. f_equal.
  unfold dict_get_default.
  assert (G : forall table : dict str,
             (forall k, In k (map fst table) -> JStr s <> JStr k) ->
             dict_get table s = None).
  { induction table as [|[k v] table IH]; intro Hn; simpl; [reflexivity|].
    destruct (str_eqb k s) eqn:E.
    - apply str_eqb_eq in E. subst. exfalso. apply (Hn s); [now left | reflexivity].
    - apply IH. intros k' Hin. apply Hn. now right. }
  now rewrite G.
Qed.

(** ** The MD5 digest as text *)

Lemma flat_map_length_const {A B} (f : A -> list B) (k : nat) (l : list A) :
  (forall x, length (f x) = k) -> length (flat_map f l) = (k * length l)%nat.
Proof.
  intro Hf. induction l as [|x l IH]; simpl; [lia|].
  rewrite length_app, Hf, IH. lia.
Qed.

Lemma hexdigest_length (msg : list Z) : length (MD5.hexdigest msg) = 32%nat.
Proof.
  unfold MD5.hexdigest.
  rewrite flat_map_length_const with (k := 2%nat) by reflexivity.
  rewrite flat_map_length_const with (k := 4%nat) by reflexivity.
  reflexivity.
Qed.



(** ** The identifier *)

Lemma shorten_id_short (i : json) (n : nat) :
  len i = Ok n -> (n <= 50)%nat -> shorten_id i = Ok i.
Proof.
  intros E Hn. unfold shorten_id. rewrite E. simpl.
  destruct (Nat.ltb_spec 50 n); [lia | reflexivity].
Qed.

Lemma shortened_length (s h : str) :
  (50 < length s)%nat -> (8 <= length h)%nat ->
  length (firstn 41 s ++ u "-" ++ firstn 8 h) = 50%nat.
Proof.
  intros Hs Hh. rewrite !length_app, !length_firstn.
  change (length (u "-")) with 1%nat. lia.
Qed.

(** A string that holds a surrogate has no UTF-8 encoding: [encode] raises
    and no identifier comes out. *)
Example shorten_id_surrogate : shorten_id (JStr (repeat 55296 51)) = Raise.
Proof. vm_compute. reflexivity. Qed.


(** ** A URL that [Request] accepts has a last path segment *)










Lemma split_not_nil (sep : N) (s : str) : split sep s <> [].
Proof.
  destruct s as [|c s]; simpl; [discriminate|].
  destruct (c =? sep); [discriminate|].
  destruct (split sep s); discriminate.
Qed.

Lemma last_cons_not_nil {A} (x : A) (l : list A) (d : A) :
  l <> [] -> last (x :: l) d = last l d.
Proof.
  destruct l; [congruence | reflexivity].
Qed.




(** ** The extractor *)

Section ExtractorFacts.
Context `{Runtime}.

(** What a candidate record is made of. *)
Lemma candidate_fields (jsonld : json) (og : dict str) (url : str) (p : product) :
  candidate jsonld og url = Ok p ->
  link p = url
  /\ google_category p = map_google_category url
  /\ (exists key, table_get avail_map key (u "in_stock") = Ok (availability p))
  /\ (exists key, table_get cond_map key (u "new") = Ok (condition p))
  /\ (exists sku, get jsonld (u "sku") (JStr []) = Ok sku
                  /\ shorten_id (if truthy sku then sku else JStr (slug url)) = Ok (id p))
  /\ (exists price_v currency,
         price p = if truthy price_v
                   then py_str price_v ++ u " " ++ py_str currency else []).
Proof.
  unfold candidate. intro E. bind_inv E.
  apply Ok_inj in E. subst p. cbn [link google_category availability condition id price].
  split; [reflexivity|]. split; [reflexivity|].
  split; [eauto|]. split; [eauto|]. split; [eauto|]. eauto.
Qed.


(** A run of [scrape_product] that returns a record went through every
    stage. *)
Lemma scrape_product_record (resp : nat -> option str) (url : str) (p : product) :
  scrape_product resp url = Ok (Some p) ->
  request_ok url = true
  /\ rejected p = false
  /\ exists html jsonld,
       fetch_url resp url = Some html
       /\ extract_product_jsonld html = Ok (Some jsonld)
       /\ candidate jsonld (extract_og_tags html) url = Ok p.
Proof.
  unfold scrape_product. intro E.
  destruct (fetch_url resp url) as [html|] eqn:F; [|discriminate].
  assert (R : request_ok url = true).
  { destruct (request_ok url) eqn:R; [reflexivity|].
    unfold fetch_url in F. simpl in F. rewrite R in F. discriminate. }
  destruct (negb (truthy (JStr html))); [discriminate|].
  destruct (extract_product_jsonld html) as [[jsonld|]|] eqn:X;
    cbn [bind] in E; try discriminate.
  destruct (negb (truthy jsonld)); [discriminate|].
  destruct (candidate jsonld (extract_og_tags html) url) as [c|] eqn:C;
    cbn [bind] in E; [|discriminate].
  destruct (rejected c) eqn:Rj; [discriminate|].
  apply Ok_inj in E. injection E as ->.
  split; [exact R|]. split; [exact Rj|]. now exists html, jsonld.
Qed.

Lemma rejected_false (p : product) :
  rejected p = false <-> truthy (title p) = true /\ price p <> [].
Proof.
  unfold rejected. rewrite orb_false_iff, !negb_false_iff, truthy_str. tauto.
Qed.
End ExtractorFacts.

(** ** Sorting *)

Section SortFacts.
Variables (A K : Type) (ltb : K -> K -> bool) (key : A -> K).
Hypothesis ltb_asym : forall a b, ltb a b = true -> ltb b a = false.
Hypothesis leb_trans :
  forall a b c, ltb b a = false -> ltb c b = false -> ltb c a = false.


Lemma insert_by_perm (x : A) (l : list A) :
  Permutation (x :: l) (insert_by ltb key x l).
Proof.
  induction l as [|y l IH]; simpl; [apply Permutation_refl|].
  destruct (ltb (key y) (key x)); [|apply Permutation_refl].
  apply perm_trans with (y :: x :: l); [apply perm_swap|].
  now apply perm_skip.
Qed.

Lemma stable_sort_perm (l : list A) : Permutation l (stable_sort ltb key l).
Proof.
  induction l as [|x l IH]; simpl; [apply perm_nil|].
  apply perm_trans with (x :: stable_sort ltb key l).
  - now apply perm_skip.
  - apply insert_by_perm.
Qed.


End SortFacts.





Section CollectedFacts.
Context `{Runtime}.


(** The records that [main] hands to the sort are records that
    [scrape_product] returned for a URL of the sitemap. *)
Lemma tally_from (done : list (result (option product)))
    (products : list product) (errors : nat) (p : product) :
  In p (fst (tally done products errors)) ->
  In p products \/ In (Ok (Some p)) done.
Proof.
  revert products errors.
  induction done as [|r done IH]; intros products errors Hp; simpl in Hp.
  - now left.
  - destruct r as [[q|]|]; apply IH in Hp.
    + destruct Hp as [Hp | Hp]; [|right; now right].
      apply in_app_or in Hp. destruct Hp as [Hp | [-> | []]];
        [now left | right; now left].
    + destruct Hp; [now left | right; now right].
    + destruct Hp; [now left | right; now right].
Qed.

Lemma as_completed_from (w : world) (urls : list str)
    (r : result (option product)) :
  In r (as_completed w urls) ->
  exists i url, In url urls /\ r = scrape_product (urlopen w (S i)) url.
Proof.
  unfold as_completed. intro Hr.
  apply in_map_iff in Hr. destruct Hr as ([i r'] & <- & Hf).
  apply (Permutation_in _ (Permutation_sym (stable_sort_perm _ _ _))) in Hf.
  apply in_map_iff in Hf. destruct Hf as ([k url] & E & Hk).
  cbn [fst snd] in E. injection E as <- <-.
  exists k, url. split; [|reflexivity].
  now apply in_combine_r in Hk.
Qed.

Lemma collected_from (w : world) (urls : list str) (p : product) :
  In p (fst (tally (as_completed w urls) [] 0)) ->
  exists i url, In url urls /\ scrape_product (urlopen w (S i)) url = Ok (Some p).
Proof.
  intro Hp. apply tally_from in Hp. destruct Hp as [[] | Hp].
  apply as_completed_from in Hp. destruct Hp as (i & url & Hu & E).
  now exists i, url.
Qed.
End CollectedFacts.

(** C6.  [scrape_product] returns no record whose title or price is empty:
    when the candidate record has an empty title or an empty price, the
    result is [None].  No record that [main] collects for the serializer
    lacks its title or its price. *)
Theorem missing_title_or_price_rejected `{Runtime} :
  (forall resp url html jsonld c,
      fetch_url resp url = Some html -> html <> [] ->
      extract_product_jsonld html = Ok (Some jsonld) ->
      candidate jsonld (extract_og_tags html) url = Ok c ->
      truthy (title c) = false \/ price c = [] ->
      scrape_product resp url = Ok None)
  /\ (forall resp url p,
         scrape_product resp url = Ok (Some p) ->
         truthy (title p) = true /\ price p <> [])
  /\ (forall w urls p,
         In p (fst (tally (as_completed w urls) [] 0)) ->
         truthy (title p) = true /\ price p <> []).
Proof.
  assert (A : forall resp url p,
             scrape_product resp url = Ok (Some p) ->
             truthy (title p) = true /\ price p <> []).
  { intros resp url p E. apply scrape_product_record in E.
    destruct E as (_ & Rj & _). now apply rejected_false. }
  split; [|split; [exact A|]].
  - intros resp url html jsonld c F Hh X C Hc.
    unfold scrape_product. rewrite F.
    apply truthy_str in Hh. rewrite Hh. cbn [negb].
    rewrite X. cbn [bind].
    destruct (negb (truthy jsonld)); [reflexivity|].
    rewrite C. cbn [bind].
    assert (Rj : rejected c = true).
    { unfold rejected. destruct Hc as [Ht | Hp].
      - now rewrite Ht.
      - rewrite Hp. apply orb_true_r. }
    now rewrite Rj.
  - intros w urls p Hp. apply collected_from in Hp.
    destruct Hp as (i & url & _ & E). now apply A in E.
Qed.

(** ** The serializer *)

Section SerializerFacts.
Context `{Runtime}.

Lemma item_of_str_title (p : product) :
  is_str (title p) = true -> exists block, item p = Ok block.
Proof.
  unfold item. destruct (title p); try discriminate. intros _.
  cbn [slice_to bind]. eauto.
Qed.




Lemma list_sort_str_titles (ps : list product) :
  Forall (fun p => is_str (title p) = true) ps ->
  list_sort title ps = Ok (stable_sort str_ltb (fun p => text_of (title p)) ps).
Proof.
  intro F. unfold list_sort.
  assert (E : forallb (fun x => is_str (title x)) ps = true).
  { apply forallb_forall. now apply Forall_forall. }
  now rewrite E.
Qed.

Lemma finish_written (collected sorted : list product) (xml : str) :
  list_sort title collected = Ok sorted ->
  generate_feed sorted = Ok xml ->
  written (finish collected) = Some xml.
Proof.
  intros S G. unfold finish. rewrite S, G.
  destruct (encode xml); [|reflexivity].
  destruct (count_brands sorted); [|reflexivity].
  destruct (length sorted <? 10)%nat; reflexivity.
Qed.

Lemma finish_too_few (collected sorted : list product) (xml : str) :
  list_sort title collected = Ok sorted ->
  generate_feed sorted = Ok xml ->
  (length sorted < 10)%nat ->
  exit_code (finish collected) = 1%Z /\ written (finish collected) = Some xml.
Proof.
  intros S G L. split; [|now apply finish_written with (sorted := sorted)].
  unfold finish. rewrite S, G.
  destruct (encode xml); [|reflexivity].
  destruct (count_brands sorted); [|reflexivity].
  apply Nat.ltb_lt in L. now rewrite L.
Qed.
End SerializerFacts.


(** C8.  In the lines of an item, a [g:gtin] element is present exactly when
    the record's gtin is non-empty, an [g:identifier_exists] element exactly
    when it is empty; the first holds the escaped gtin, the second is the
    fixed line that says [false]. *)
Theorem gtin_or_identifier_exists `{Runtime} (p : product) (lines : list str) :
  item p = Ok lines ->
  emits (u "g:gtin") lines = truthy (gtin p)
  /\ emits (u "g:identifier_exists") lines = negb (truthy (gtin p))
  /\ (truthy (gtin p) = true ->
      In (element (u "      ") (u "g:gtin") (escape_xml (gtin p))) lines)
  /\ (truthy (gtin p) = false -> In identifier_exists_line lines).
Proof.
  unfold item. intro E.
  destruct (slice_to 150 (title p)) as [t|]; cbn [bind] in E; [|discriminate].
  apply Ok_inj in E. subst lines.
  destruct (truthy (brand p)), (truthy (mpn p)), (truthy (gtin p));
    (split; [vm_compute; reflexivity|]);
    (split; [vm_compute; reflexivity|]);
    (split; intro T; try discriminate T);
    cbn [app In]; tauto.
Qed.

Example sample_scrape :
  @scrape_product sample_runtime (urlopen sample_world 1) (sample_url "fronius-symo-10")
  = Ok (Some sample_record).
Proof. vm_compute. reflexivity. Qed.

Example sample_scrape_without_price :
  @scrape_product sample_runtime (urlopen sample_world 2) (sample_url "solar-kablo-6mm")
  = Ok None.
Proof. vm_compute. reflexivity. Qed.

Example sample_scrape_unreachable :
  @scrape_product sample_runtime (urlopen sample_world 3) (sample_url "huawei-sun2000")
  = Ok None.
Proof. vm_compute. reflexivity. Qed.

Example sample_tally :
  @tally (@as_completed sample_runtime sample_world
            (@re_findall_loc sample_runtime (u "sitemap"))) [] 0
  = ([sample_record], 2%nat).
Proof. vm_compute. reflexivity. Qed.

(** C10.  A record that [scrape_product] returns has one of the three
    availability values and one of the three condition values.  The item
    holds both between their tags as they are, without a call of
    [escape_xml]; none of the six values has a character that [escape_xml]
    would change, and each is character data. *)
Theorem availability_condition_enumerated `{Runtime}
    (resp : nat -> option str) (url : str) (p : product) :
  scrape_product resp url = Ok (Some p) ->
  In (availability p) availability_values
  /\ In (condition p) condition_values
  /\ (forall lines, item p = Ok lines ->
        In (element (u "      ") (u "g:availability") (availability p)) lines
        /\ In (element (u "      ") (u "g:condition") (condition p)) lines)
  /\ escape_xml (JStr (availability p)) = availability p
  /\ escape_xml (JStr (condition p)) = condition p
  /\ chardata (availability p) = true
  /\ chardata (condition p) = true.
Proof.
  intro E. apply scrape_product_record in E.
  destruct E as (_ & _ & html & jsonld & _ & _ & C).
  apply candidate_fields in C.
  destruct C as (_ & _ & (ka & Ha) & (kc & Hc) & _).
  apply avail_map_values in Ha. apply cond_map_values in Hc.
  split; [exact Ha|]. split; [exact Hc|]. split.
  { intros lines E. unfold item in E.
    destruct (slice_to 150 (title p)) as [t|]; cbn [bind] in E; [|discriminate].
    apply Ok_inj in E. subst lines. cbn [app In]. tauto. }
  unfold availability_values in Ha. unfold condition_values in Hc.
  cbn [In] in Ha, Hc.
  destruct Ha as [Ea | [Ea | [Ea | []]]]; rewrite <- Ea;
    destruct Hc as [Ec | [Ec | [Ec | []]]]; rewrite <- Ec;
    vm_compute; repeat split.
Qed.

(** ** Where the code departs from its specification *)

(** C2.  The availability table has no entry for the insecure form of the
    PreOrder URI: an offer with that availability is read as in stock, while
    the secure form is read as a preorder. *)
Theorem http_preorder_read_as_in_stock `{Runtime} :
  table_get avail_map (JStr (u "http://schema.org/PreOrder")) (u "in_stock")
  = Ok (u "in_stock")
  /\ table_get avail_map (JStr (u "https://schema.org/PreOrder")) (u "in_stock")
     = Ok (u "preorder")
  /\ match candidate (sample_preorder "http") [] (sample_url "wattpilot-go-22-j") with
     | Ok p => availability p = u "in_stock"
     | Raise => False
     end
  /\ match candidate (sample_preorder "https") [] (sample_url "wattpilot-go-22-j") with
     | Ok p => availability p = u "preorder"
     | Raise => False
     end.
Proof. vm_compute. repeat split. Qed.

(** C1.  In the sample run one product is collected out of three pages.
    The process ends with exit code 1 and says that the feed was not saved,
    but the feed of that one product has been written before the count is
    looked at. *)
Theorem feed_written_below_threshold :
  let o := @main sample_runtime sample_world in
  exit_code o = 1%Z
  /\ In (u "ERROR: Too few products scraped, feed not saved") (stdout o)
  /\ exists xml,
       @generate_feed sample_runtime [sample_record] = Ok xml
       /\ written o = Some xml
       /\ contains (u "<g:id>FRO-SYMO-10</g:id>") xml = true.
Proof.
  vm_compute. split; [reflexivity|]. split; [tauto|].
  eexists. split; [reflexivity|]. split; reflexivity.
Qed.

(** ** The theorems at the sample run *)

Lemma classification_first_match_witness :
  sample_url "Axitec-450W-SOLAR-Panel-mc4-kablo"
  = sample_url "Axitec-450W-" ++ u "SOLAR-Panel" ++ u "-mc4-kablo"
  /\ map ascii_lower (u "SOLAR-Panel") = u "solar-panel"
  /\ @map_google_category sample_runtime
       (sample_url "Axitec-450W-SOLAR-Panel-mc4-kablo") = solar_panels.
Proof.
  assert (E : sample_url "Axitec-450W-SOLAR-Panel-mc4-kablo"
              = sample_url "Axitec-450W-" ++ u "SOLAR-Panel" ++ u "-mc4-kablo")
    by reflexivity.
  assert (L : map ascii_lower (u "SOLAR-Panel") = u "solar-panel") by reflexivity.
  split; [exact E | split; [exact L|]].
  exact (proj1 (proj2 (proj2 (@classification_first_match sample_runtime _)))
           _ _ _ E L).
Defined.

Lemma missing_title_or_price_rejected_witness :
  let resp := urlopen sample_world 2 in
  let url := sample_url "solar-kablo-6mm" in
  let html := u "page of the cable" in
  fetch_url resp url = Some html
  /\ html <> []
  /\ @extract_product_jsonld sample_runtime html = Ok (Some sample_cable)
  /\ @candidate sample_runtime sample_cable (@extract_og_tags sample_runtime html) url
     = Ok sample_cable_candidate
  /\ price sample_cable_candidate = []
  /\ @scrape_product sample_runtime resp url = Ok None.
Proof.
  intros resp url html.
  assert (F : fetch_url resp url = Some html) by (vm_compute; reflexivity).
  assert (N : html <> []) by discriminate.
  assert (X : @extract_product_jsonld sample_runtime html = Ok (Some sample_cable))
    by (vm_compute; reflexivity).
  assert (C : @candidate sample_runtime sample_cable
                (@extract_og_tags sample_runtime html) url
              = Ok sample_cable_candidate) by (vm_compute; reflexivity).
  repeat (split; [assumption || reflexivity|]).
  exact (proj1 (@missing_title_or_price_rejected sample_runtime)
           resp url html sample_cable sample_cable_candidate F N X C
           (or_intror eq_refl)).
Defined.


Example sample_sort :
  @list_sort sample_runtime _ title [sample_record; sample_panel]
  = Ok [sample_panel; sample_record].
Proof. vm_compute. reflexivity. Qed.

Lemma gtin_or_identifier_exists_witness :
  exists lines,
    @item sample_runtime sample_panel = Ok lines
    /\ emits (u "g:gtin") lines = false
    /\ emits (u "g:identifier_exists") lines = true.
Proof.
  destruct (@item_of_str_title sample_runtime sample_panel eq_refl) as [lines E].
  exists lines. split; [exact E|].
  destruct (@gtin_or_identifier_exists sample_runtime sample_panel lines E)
    as (G & I & _).
  split; [exact G | exact I].
Defined.

Lemma availability_condition_enumerated_witness :
  @scrape_product sample_runtime (urlopen sample_world 1)
                  (sample_url "fronius-symo-10") = Ok (Some sample_record)
  /\ In (availability sample_record) availability_values
  /\ In (condition sample_record) condition_values.
Proof.
  assert (E : @scrape_product sample_runtime (urlopen sample_world 1)
                (sample_url "fronius-symo-10") = Ok (Some sample_record))
    by (vm_compute; reflexivity).
  split; [exact E|].
  destruct (@availability_condition_enumerated sample_runtime _ _ _ E)
    as (A & C & _).
  split; [exact A | exact C].
Defined.

Example escape_xml_sample :
  @escape_xml sample_runtime (JStr (u "Fronius <Symo> & 'co'"))
  = u "Fronius &lt;Symo&gt; &amp; &apos;co&apos;".
Proof. vm_compute. reflexivity. Qed.

(** * Further properties of the code *)

(** ** fetch_url *)

(** X1.  [fetch_url] returns the body of the first attempt that succeeds
    among three, and only for a URL that [Request] accepts; it returns [None]
    exactly when the URL is refused or the three attempts fail.  A fourth
    attempt is never made. *)
Theorem fetch_url_first_success (resp : nat -> option str) (url : str) :
  (forall body,
      fetch_url resp url = Some body <->
      request_ok url = true
      /\ exists n, (n < 3)%nat /\ resp n = Some body
                   /\ forall m, (m < n)%nat -> resp m = None)
  /\ (fetch_url resp url = None <->
      request_ok url = false \/ forall n, (n < 3)%nat -> resp n = None).
Proof.
  unfold fetch_url. cbn [Nat.add fetch_attempts].
  destruct (request_ok url).
  - destruct (resp 0%nat) as [b0|] eqn:R0;
      [|destruct (resp 1%nat) as [b1|] eqn:R1;
        [|destruct (resp 2%nat) as [b2|] eqn:R2]].
    + split.
      * intro body. split.
        -- intro E. split; [reflexivity|]. exists 0%nat.
           repeat split; [lia | congruence | intros m Hm; lia].
        -- intros (_ & n & Hn & E & Hb). destruct n as [|n]; [congruence|].
           rewrite (Hb 0%nat) in R0 by lia. discriminate.
      * split; [discriminate|]. intros [E | E]; [discriminate|].
        rewrite (E 0%nat) in R0 by lia. discriminate.
    + split.
      * intro body. split.
        -- intro E. split; [reflexivity|]. exists 1%nat.
           repeat split; [lia | congruence |].
           intros m Hm. assert (m = 0%nat) by lia. now subst.
        -- intros (_ & n & Hn & E & Hb).
           destruct n as [|[|n]]; [congruence | congruence |].
           rewrite (Hb 1%nat) in R1 by lia. discriminate.
      * split; [discriminate|]. intros [E | E]; [discriminate|].
        rewrite (E 1%nat) in R1 by lia. discriminate.
    + split.
      * intro body. split.
        -- intro E. split; [reflexivity|]. exists 2%nat.
           repeat split; [lia | congruence |].
           intros m Hm. assert (m = 0%nat \/ m = 1%nat) as [-> | ->] by lia;
             assumption.
        -- intros (_ & n & Hn & E & Hb).
           destruct n as [|[|[|n]]]; [congruence | congruence | congruence | lia].
      * split; [discriminate|]. intros [E | E]; [discriminate|].
        rewrite (E 2%nat) in R2 by lia. discriminate.
    + split.
      * intro body. split; [discriminate|].
        intros (_ & n & Hn & E & _).
        destruct n as [|[|[|n]]]; [congruence | congruence | congruence | lia].
      * split; [|reflexivity]. intros _. right. intros n Hn.
        destruct n as [|[|[|n]]]; [assumption | assumption | assumption | lia].
  - split.
    + intro body. split; [discriminate|]. intros [E _]. discriminate.
    + split; [now left | reflexivity].
Qed.

(** X2.  A page that cannot be fetched is no error of [scrape_product]: when
    the URL is refused or the three attempts fail or the body is empty, the
    result is [None], never an exception. *)
Theorem scrape_product_unreachable `{Runtime} (resp : nat -> option str) (url : str) :
  request_ok url = false
  \/ (forall n, (n < 3)%nat -> resp n = None \/ resp n = Some []) ->
  scrape_product resp url = Ok None.
Proof.
  intro Hf. unfold scrape_product, fetch_url. cbn [Nat.add fetch_attempts].
  destruct Hf as [E | E]; [now rewrite E|].
  destruct (request_ok url); [|reflexivity].
  destruct (E 0%nat) as [-> | ->]; [lia | | reflexivity].
  destruct (E 1%nat) as [-> | ->]; [lia | | reflexivity].
  destruct (E 2%nat) as [-> | ->]; [lia | reflexivity | reflexivity].
Qed.

Lemma scrape_product_unreachable_witness :
  @scrape_product sample_runtime (urlopen sample_world 3)
                  (sample_url "huawei-sun2000") = Ok None.
Proof.
  apply (@scrape_product_unreachable sample_runtime).
  right. intros n _. left. reflexivity.
Defined.

(** ** extract_product_jsonld *)

Section JsonldFacts.
Context `{Runtime}.

Lemma first_product_passed_over (block : str) (rest : list str) :
  passed_over block -> first_product (block :: rest) = first_product rest.
Proof.
  intros [E | (m & E & T)]; cbn [first_product]; fold (clean block); rewrite E.
  - reflexivity.
  - cbn [get bind]. now rewrite T.
Qed.

Lemma first_product_skips (bad rest : list str) :
  Forall passed_over bad -> first_product (bad ++ rest) = first_product rest.
Proof.
  induction 1 as [|block bad Hb _ IH]; [reflexivity|].
  cbn [app]. now rewrite first_product_passed_over.
Qed.

Lemma first_product_shape (blocks : list str) (data : json) :
  first_product blocks = Ok (Some data) ->
  exists m, data = JObj m
            /\ dict_get m (u "@type") = Some (JStr (u "Product"))
            /\ truthy data = true.
Proof.
  induction blocks as [|block blocks IH]; cbn [first_product]; [discriminate|].
  destruct (json_loads _) as [v| |]; [|exact IH|discriminate].
  destruct v; cbn [get bind]; try discriminate.
  destruct (eq_str (dict_get_default m (u "@type") JNull) (u "Product")) eqn:T;
    [|exact IH].
  intro E. apply Ok_inj in E. injection E as <-.
  exists m. split; [reflexivity|].
  unfold dict_get_default in T.
  destruct (dict_get m (u "@type")) as [t|] eqn:G; [|discriminate].
  destruct t; try discriminate. cbn [eq_str] in T.
  apply str_eqb_eq in T. subst s. split; [reflexivity|].
  destruct m; [discriminate | reflexivity].
Qed.
End JsonldFacts.


(** X4.  A block that parses to something that is not an object (a JSON
    array of objects, say) makes [extract_product_jsonld] raise, also when a
    Product object follows it: only a parse error is caught.
    [scrape_product] raises with it, and [main] counts the page as an
    error. *)
Theorem extract_raises_on_non_object `{Runtime}
    (html : str) (bad rest : list str) (block : str) (v : json)
    (resp : nat -> option str) (url : str)
    (done : list (result (option product))) (products : list product) (errors : nat) :
  Forall passed_over bad ->
  re_findall_ldjson html = bad ++ block :: rest ->
  json_loads (clean block) = Loaded v ->
  (forall m, v <> JObj m) ->
  extract_product_jsonld html = Raise
  /\ (fetch_url resp url = Some html -> html <> [] ->
      scrape_product resp url = Raise
      /\ tally (scrape_product resp url :: done) products errors
         = tally done products (S errors)).
Proof.
  intros Hb Eb E Hv.
  assert (X : extract_product_jsonld html = Raise).
  { unfold extract_product_jsonld. rewrite Eb, first_product_skips by exact Hb.
    cbn [first_product]. fold (clean block). rewrite E.
    destruct v; try reflexivity. now destruct (Hv m). }
  split; [exact X|]. intros F Hh.
  assert (S : scrape_product resp url = Raise).
  { unfold scrape_product. rewrite F. apply truthy_str in Hh. rewrite Hh.
    cbn [negb]. now rewrite X. }
  split; [exact S|]. now rewrite S.
Qed.

(** X5.  What [extract_product_jsonld] returns is an object whose [@type]
    is the string ["Product"]; it is never an empty object, so the test
    [if not jsonld] of [scrape_product] only meets [None]. *)
Theorem extracted_is_product `{Runtime} (html : str) (data : json) :
  extract_product_jsonld html = Ok (Some data) ->
  exists m, data = JObj m
            /\ dict_get m (u "@type") = Some (JStr (u "Product"))
            /\ truthy data = true.
Proof.
  apply first_product_shape.
Qed.



Example sample_json_loads_raises :
  @extract_product_jsonld sample_runtime_blocks
    (u "not json|an integer of 5000 digits|page of the inverter") = Raise.
Proof. vm_compute. reflexivity. Qed.

Lemma extract_raises_on_non_object_witness :
  @extract_product_jsonld sample_runtime_blocks
    (u "not json|[1]|page of the inverter") = Raise.
Proof.
  refine (proj1 (@extract_raises_on_non_object sample_runtime_blocks
                   (u "not json|[1]|page of the inverter")
                   [u "not json"] [u "page of the inverter"] (u "[1]")
                   (JArr [JInt 1]) (fun _ => None) [] [] [] 0%nat
                   _ eq_refl eq_refl _)).
  - apply Forall_cons; [left; reflexivity | apply Forall_nil].
  - intros m E. discriminate E.
Defined.

Lemma extracted_is_product_witness :
  exists m, sample_inverter = JObj m
            /\ dict_get m (u "@type") = Some (JStr (u "Product"))
            /\ truthy sample_inverter = true.
Proof.
  apply (@extracted_is_product sample_runtime (u "page of the inverter")).
  reflexivity.
Defined.

(** ** extract_og_tags *)

Lemma dict_get_set_same {A} (m : dict A) (k : str) (v : A) :
  dict_get (dict_set m k v) k = Some v.
Proof.
  induction m as [|[k' v'] m IH]; simpl.
  - assert (E : str_eqb k k = true) by now apply str_eqb_eq.
    now rewrite E.
  - destruct (str_eqb k' k) eqn:E; simpl; now rewrite E.
Qed.

Lemma dict_get_set_other {A} (m : dict A) (k k' : str) (v : A) :
  k' <> k -> dict_get (dict_set m k v) k' = dict_get m k'.
Proof.
  intro Hk. induction m as [|[k0 v0] m IH]; simpl.
  - destruct (str_eqb k k') eqn:E; [|reflexivity].
    apply str_eqb_eq in E. congruence.
  - destruct (str_eqb k0 k) eqn:E; simpl.
    + apply str_eqb_eq in E. subst k0.
      destruct (str_eqb k k') eqn:E'; [|reflexivity].
      apply str_eqb_eq in E'. congruence.
    + destruct (str_eqb k0 k'); [reflexivity | exact IH].
Qed.

Lemma og_fold_lookup `{Runtime} (k : str) (ms : list (str * str))
    (tags : dict str) (acc : option str) :
  dict_get tags k = option_map unescape acc ->
  dict_get (fold_left (fun tags m => dict_set tags (fst m) (unescape (snd m))) ms tags) k
  = option_map unescape
      (fold_left (fun acc m => if str_eqb (fst m) k then Some (snd m) else acc) ms acc).
Proof.
  revert tags acc. induction ms as [|m ms IH]; intros tags acc E; simpl; [exact E|].
  apply IH. destruct (str_eqb (fst m) k) eqn:T.
  - apply str_eqb_eq in T. rewrite T. apply dict_get_set_same.
  - rewrite dict_get_set_other; [exact E|].
    intro Ek. rewrite Ek in T.
    assert (T' : str_eqb (fst m) (fst m) = true) by now apply str_eqb_eq.
    congruence.
Qed.

(** X6.  In the tags of a page, an [og:] name stands for the unescaped
    content of its last match; the key [meta_description] stands for the
    description meta tag when the page has one, also when an
    [og:meta_description] tag is there. *)
Theorem extract_og_tags_lookup `{Runtime} (html k : str) :
  dict_get (extract_og_tags html) k
  = match re_search_description html with
    | Some d =>
        if str_eqb k (u "meta_description") then Some (unescape d)
        else option_map unescape (last_og k (re_finditer_og html))
    | None => option_map unescape (last_og k (re_finditer_og html))
    end.
Proof.
  unfold extract_og_tags, last_og.
  assert (L := og_fold_lookup k (re_finditer_og html) [] None eq_refl).
  destruct (re_search_description html) as [d|]; [|exact L].
  destruct (str_eqb k (u "meta_description")) eqn:E.
  - apply str_eqb_eq in E. subst k. apply dict_get_set_same.
  - rewrite dict_get_set_other; [exact L|].
    intro Ek. subst k. discriminate E.
Qed.

Example sample_og_tags :
  @extract_og_tags sample_runtime_blocks (u "page with og tags")
  = [ (u "title", u "Second title"); (u "image", u "a.jpg");
      (u "meta_description", u "meta text") ].
Proof. vm_compute. reflexivity. Qed.

(** ** The fields of a candidate record *)

Section CandidateFacts.
Context `{Runtime}.

(** Every field of a candidate record, read off the JSON-LD object [m]. *)
Lemma candidate_inv (m : list (str * json)) (og : dict str) (url : str) (c : product) :
  candidate (JObj m) og url = Ok c ->
  exists om bm desc_s,
    dict_get_default m (u "offers") (JObj []) = JObj om
    /\ dict_get_default m (u "brand") (JObj []) = JObj bm
    /\ as_str (if truthy (dict_get_default m (u "description") (JStr []))
               then dict_get_default m (u "description") (JStr [])
               else JStr (dict_get_default og (u "meta_description") []))
       = Ok desc_s
    /\ table_get avail_map (dict_get_default om (u "availability") (JStr [])) (u "in_stock")
       = Ok (availability c)
    /\ table_get cond_map (dict_get_default om (u "itemCondition") (JStr [])) (u "new")
       = Ok (condition c)
    /\ shorten_id (if truthy (dict_get_default m (u "sku") (JStr []))
                   then dict_get_default m (u "sku") (JStr [])
                   else JStr (slug url)) = Ok (id c)
    /\ title c = dict_get_default m (u "name") (JStr (dict_get_default og (u "title") []))
    /\ description c = firstn 5000 (strip desc_s)
    /\ link c = url
    /\ image_link c
       = dict_get_default m (u "image") (JStr (dict_get_default og (u "image") []))
    /\ price c
       = (if truthy (dict_get_default om (u "price") (JStr []))
          then py_str (dict_get_default om (u "price") (JStr [])) ++ u " "
               ++ py_str (dict_get_default om (u "priceCurrency") (JStr (u "TRY")))
          else [])
    /\ brand c = dict_get_default bm (u "name") (JStr [])
    /\ mpn c = dict_get_default m (u "mpn") (JStr [])
    /\ gtin c = dict_get_default m (u "gtin13") (dict_get_default m (u "gtin") (JStr []))
    /\ category c = dict_get_default m (u "category") (JStr [])
    /\ google_category c = map_google_category url.
Proof.
  unfold candidate. intro E. cbn [get bind] in E.
  destruct (dict_get_default m (u "offers") (JObj [])) as [| | | | |l|om] eqn:O;
    cbn [get bind] in E; try discriminate E.
  bind_inv E.
  match goal with
  | Eb : get _ (u "name") _ = Ok _ |- _ =>
      destruct (dict_get_default m (u "brand") (JObj [])) as [| | | | |l|bm] eqn:B;
      cbn [get] in Eb; try discriminate Eb; apply Ok_inj in Eb; subst
  end.
  apply Ok_inj in E. subst c.
  exists om, bm. eexists.
  cbn [availability condition id title description link image_link price brand
       mpn gtin category google_category].
  repeat (split; [first [reflexivity | eassumption]|]). reflexivity.
Qed.

Lemma py_str_price_not_empty (a b : str) : a ++ u " " ++ b <> [].
Proof.
  intro E. apply (f_equal (@length N)) in E.
  rewrite !length_app in E. simpl in E. lia.
Qed.
End CandidateFacts.

Lemma dict_get_default_some {A} (m : dict A) (k : str) (d v : A) :
  dict_get m k = Some v -> dict_get_default m k d = v.
Proof. unfold dict_get_default. now intros ->. Qed.

Lemma dict_get_default_none {A} (m : dict A) (k : str) (d : A) :
  dict_get m k = None -> dict_get_default m k d = d.
Proof. unfold dict_get_default. now intros ->. Qed.

(** X7.  A key that is present decides, also when its value is empty: the
    title is the value of [name] whenever the object has that key, and the
    [og:title] is used only when it has not, so a product whose [name] is
    empty is rejected whatever the page's tags say.  In the same way a
    [gtin13] key, even empty, keeps the [gtin] key from being read. *)
Theorem present_key_decides `{Runtime}
    (m : list (str * json)) (og : dict str) (url : str) (c : product) :
  candidate (JObj m) og url = Ok c ->
  (forall v, dict_get m (u "name") = Some v ->
             title c = v /\ (truthy v = false -> rejected c = true))
  /\ (dict_get m (u "name") = None ->
      title c = JStr (dict_get_default og (u "title") []))
  /\ (forall v, dict_get m (u "gtin13") = Some v -> gtin c = v)
  /\ (dict_get m (u "gtin13") = None ->
      gtin c = dict_get_default m (u "gtin") (JStr [])).
Proof.
  intro C. apply candidate_inv in C.
  destruct C as (om & bm & ds & _ & _ & _ & _ & _ & _ & T & _ & _ & _ & _ & _ & _ & G & _).
  split; [|split; [|split]].
  - intros v E. rewrite (dict_get_default_some _ _ _ E) in T.
    split; [exact T|]. intro F. unfold rejected. now rewrite T, F.
  - intro E. now rewrite (dict_get_default_none _ _ _ E) in T.
  - intros v E. now rewrite (dict_get_default_some _ _ _ E) in G.
  - intro E. now rewrite (dict_get_default_none _ _ _ E) in G.
Qed.

(** ** The description *)

Lemma lstrip_by_suffix (f : N -> bool) (s : str) :
  exists p, s = p ++ lstrip_by f s.
Proof.
  induction s as [|c s [p IH]]; [now exists []|].
  simpl. destruct (f c).
  - exists (c :: p). simpl. now rewrite <- IH.
  - now exists [].
Qed.

Lemma rstrip_by_prefix (f : N -> bool) (s : str) :
  exists r, s = rstrip_by f s ++ r.
Proof.
  unfold rstrip_by. destruct (lstrip_by_suffix f (rev s)) as [p E].
  exists (rev p). rewrite <- rev_app_distr, <- E. now rewrite rev_involutive.
Qed.

Lemma lstrip_by_hd (f : N -> bool) (s : str) (c : N) (r : str) :
  lstrip_by f s = c :: r -> f c = false.
Proof.
  induction s as [|x s IH]; simpl; [discriminate|].
  destruct (f x) eqn:E; [exact IH|]. intro E'. injection E' as <- _. exact E.
Qed.

Lemma strip_hd (s : str) (c : N) (r : str) :
  strip s = c :: r -> isspace c = false.
Proof.
  unfold strip. intro E.
  destruct (rstrip_by_prefix isspace (lstrip_by isspace s)) as [t Et].
  rewrite E in Et. simpl in Et. now apply lstrip_by_hd in Et.
Qed.

(** X8.  The description of a candidate record has at most 5000 characters
    and does not begin with white space, so the cut to 5000 characters that
    [generate_feed] applies to it changes nothing.  When the JSON-LD
    description is missing or empty, the description meta tag is used. *)
Theorem description_capped `{Runtime}
    (m : list (str * json)) (og : dict str) (url : str) (c : product) :
  candidate (JObj m) og url = Ok c ->
  (length (description c) <= 5000)%nat
  /\ firstn 5000 (description c) = description c
  /\ (forall ch rest, description c = ch :: rest -> isspace ch = false)
  /\ (truthy (dict_get_default m (u "description") (JStr [])) = false ->
      description c
      = firstn 5000 (strip (dict_get_default og (u "meta_description") []))).
Proof.
  intro C. apply candidate_inv in C.
  destruct C as (om & bm & ds & _ & _ & S & _ & _ & _ & _ & D & _).
  rewrite D. split; [apply firstn_le_length|].
  split; [rewrite firstn_firstn; f_equal; lia|]. split.
  - intros ch rest E. destruct (strip ds) as [|x xs] eqn:Es; [discriminate|].
    change (firstn 5000 (x :: xs)) with (x :: firstn 4999 xs) in E.
    injection E as <- _. now apply strip_hd in Es.
  - intro F. rewrite F in S. cbn [as_str] in S. apply Ok_inj in S. now subst ds.
Qed.

(** ** The price *)

(** X9.  The price of a candidate record is empty exactly when the offer
    has no price or a price that counts as false (an empty string, zero,
    null); such a record is rejected.  A price given as a non-empty string
    without a currency reads as that string, a space and [TRY]. *)
Theorem price_of_offer `{Runtime}
    (m om : list (str * json)) (og : dict str) (url : str) (c : product) :
  candidate (JObj m) og url = Ok c ->
  dict_get_default m (u "offers") (JObj []) = JObj om ->
  (price c = [] <-> truthy (dict_get_default om (u "price") (JStr [])) = false)
  /\ (price c = [] -> rejected c = true)
  /\ (forall s, dict_get om (u "price") = Some (JStr s) -> s <> [] ->
                dict_get om (u "priceCurrency") = None ->
                price c = s ++ u " TRY").
Proof.
  intros C O. apply candidate_inv in C.
  destruct C as (om' & bm & ds & O' & _ & _ & _ & _ & _ & _ & _ & _ & _ & P & _).
  rewrite O in O'. injection O' as <-.
  split; [|split].
  - rewrite P. destruct (truthy _); split; try reflexivity; try discriminate.
    intro E. now apply py_str_price_not_empty in E.
  - intro E. unfold rejected. rewrite E. apply orb_true_r.
  - intros s Es Hs Ec. rewrite P.
    rewrite (dict_get_default_some _ _ _ Es), (dict_get_default_none _ _ _ Ec).
    apply truthy_str in Hs. now rewrite Hs.
Qed.

(** ** Values of the wrong type *)

(** X10.  The extractor raises on a document whose [offers] or [brand] is
    not an object (a list of offers, a brand given as a plain string), whose
    [sku] is a number other than zero or [true], or whose description is
    non-empty and not a string. *)
Theorem candidate_raises_on_wrong_type `{Runtime}
    (m : list (str * json)) (og : dict str) (url : str) (v : json) :
  (dict_get m (u "offers") = Some v -> (forall om, v <> JObj om) ->
   candidate (JObj m) og url = Raise)
  /\ (dict_get m (u "brand") = Some v -> (forall bm, v <> JObj bm) ->
      candidate (JObj m) og url = Raise)
  /\ (dict_get m (u "sku") = Some v -> truthy v = true -> len v = Raise ->
      candidate (JObj m) og url = Raise)
  /\ (dict_get m (u "description") = Some v -> truthy v = true -> is_str v = false ->
      candidate (JObj m) og url = Raise).
Proof.
  split; [|split; [|split]].
  - intros E Hv. destruct (candidate (JObj m) og url) as [c|] eqn:C; [|reflexivity].
    apply candidate_inv in C. destruct C as (om & _ & _ & O & _).
    rewrite (dict_get_default_some _ _ _ E) in O. now destruct (Hv om).
  - intros E Hv. destruct (candidate (JObj m) og url) as [c|] eqn:C; [|reflexivity].
    apply candidate_inv in C. destruct C as (_ & bm & _ & _ & B & _).
    rewrite (dict_get_default_some _ _ _ E) in B. now destruct (Hv bm).
  - intros E T L. destruct (candidate (JObj m) og url) as [c|] eqn:C; [|reflexivity].
    apply candidate_inv in C. destruct C as (_ & _ & _ & _ & _ & _ & _ & _ & S & _).
    rewrite (dict_get_default_some _ _ _ E), T in S.
    unfold shorten_id in S. rewrite L in S. discriminate.
  - intros E T S. destruct (candidate (JObj m) og url) as [c|] eqn:C; [|reflexivity].
    apply candidate_inv in C. destruct C as (_ & _ & ds & _ & _ & D & _).
    rewrite (dict_get_default_some _ _ _ E), T in D.
    destruct v; try discriminate.
Qed.

Lemma present_key_decides_witness :
  exists c,
    @candidate sample_runtime (JObj sample_nameless)
               [(u "title", u "Title of the page")] (sample_url "panel") = Ok c
    /\ title c = JStr [] /\ rejected c = true /\ gtin c = JStr [].
Proof.
  destruct (@candidate sample_runtime (JObj sample_nameless)
              [(u "title", u "Title of the page")] (sample_url "panel"))
    as [c|] eqn:C; [|vm_compute in C; discriminate C].
  exists c. split; [reflexivity|].
  destruct (@present_key_decides sample_runtime _ _ _ _ C) as (T & _ & G & _).
  destruct (T (JStr []) eq_refl) as [Tc R].
  split; [exact Tc|]. split; [exact (R eq_refl) | exact (G (JStr []) eq_refl)].
Defined.

Lemma description_capped_witness :
  exists c,
    @candidate sample_runtime sample_inverter [] (sample_url "fronius-symo-10") = Ok c
    /\ (length (description c) <= 5000)%nat
    /\ firstn 5000 (description c) = description c.
Proof.
  destruct (@candidate sample_runtime sample_inverter [] (sample_url "fronius-symo-10"))
    as [c|] eqn:C; [|vm_compute in C; discriminate C].
  exists c. split; [reflexivity|].
  destruct (@description_capped sample_runtime _ _ _ _ C) as (L & F & _).
  split; [exact L | exact F].
Defined.

Lemma price_of_offer_witness :
  exists c,
    @candidate sample_runtime (sample_preorder "https") []
               (sample_url "wattpilot-go-22-j") = Ok c
    /\ price c = u "31900.00" ++ u " TRY".
Proof.
  destruct (@candidate sample_runtime (sample_preorder "https") []
              (sample_url "wattpilot-go-22-j"))
    as [c|] eqn:C; [|vm_compute in C; discriminate C].
  exists c. split; [reflexivity|].
  destruct (@price_of_offer sample_runtime _ _ _ _ _ C eq_refl) as (_ & _ & P).
  apply P; [reflexivity | discriminate | reflexivity].
Defined.

Lemma candidate_raises_on_wrong_type_witness :
  @candidate sample_runtime (JObj sample_plain_brand) [] (sample_url "huawei-sun2000")
  = Raise.
Proof.
  refine (proj1 (proj2 (@candidate_raises_on_wrong_type sample_runtime
                          sample_plain_brand [] (sample_url "huawei-sun2000")
                          (JStr (u "Huawei")))) eq_refl _).
  intros bm E. discriminate E.
Defined.

(** ** The slug and the identifier *)

Lemma split_segments_clean (sep : N) (s : str) :
  Forall (fun seg => ~ In sep seg) (split sep s).
Proof.
  induction s as [|c s IH]; simpl.
  - constructor; [intros [] | constructor].
  - destruct (N.eqb_spec c sep) as [->|Hc].
    + constructor; [intros [] | exact IH].
    + destruct (split sep s) as [|seg segs]; [repeat constructor; intros [E | []]; congruence|].
      inversion IH as [|? ? Hs Hr]; subst.
      constructor; [|exact Hr]. intros [E | Hin]; [congruence | now apply Hs].
Qed.

Lemma split_clean (sep : N) (s : str) : ~ In sep s -> split sep s = [s].
Proof.
  induction s as [|c s IH]; intro Hn; simpl; [reflexivity|].
  destruct (N.eqb_spec c sep) as [->|Hc]; [exfalso; apply Hn; now left|].
  rewrite IH; [reflexivity|]. intro Hin. apply Hn. now right.
Qed.

Lemma split_two_segments (sep : N) (s : str) :
  In sep s -> exists x y r, split sep s = x :: y :: r.
Proof.
  induction s as [|c s IH]; intro Hin; [destruct Hin|].
  simpl. destruct (N.eqb_spec c sep) as [->|Hc].
  - destruct (split sep s) as [|y r] eqn:E; [now destruct (split_not_nil sep s)|].
    now exists [], y, r.
  - destruct Hin as [-> | Hin]; [congruence|].
    destruct (IH Hin) as (x & y & r & ->). now exists (c :: x), y, r.
Qed.

Lemma last_split_after_sep (sep : N) (a b : str) :
  last (split sep (a ++ sep :: b)) [] = last (split sep b) [].
Proof.
  induction a as [|c a IH]; simpl.
  - rewrite N.eqb_refl. apply last_cons_not_nil, split_not_nil.
  - destruct (c =? sep).
    + rewrite last_cons_not_nil by apply split_not_nil. exact IH.
    + destruct (split_two_segments sep (a ++ sep :: b)) as (x & y & r & E).
      { apply in_or_app. right. now left. }
      rewrite E in *. rewrite last_cons_not_nil by discriminate.
      rewrite last_cons_not_nil in IH by discriminate. exact IH.
Qed.

Lemma rev_repeat_same {A} (x : A) (n : nat) : rev (repeat x n) = repeat x n.
Proof.
  induction n as [|n IH]; [reflexivity|].
  simpl. rewrite IH. symmetry. apply repeat_cons.
Qed.

Lemma lstrip_by_repeat (f : N -> bool) (c : N) (n : nat) (r : str) :
  f c = true -> lstrip_by f (repeat c n ++ r) = lstrip_by f r.
Proof.
  intro E. induction n as [|n IH]; [reflexivity|].
  simpl. now rewrite E.
Qed.

Lemma last_Forall {A} (P : A -> Prop) (l : list A) (d : A) :
  Forall P l -> P d -> P (last l d).
Proof.
  induction 1 as [|x l Hx _ IH]; intro Hd; [exact Hd|].
  destruct l; [exact Hx | now apply IH].
Qed.

Lemma rstrip_slashes (s : str) (n : nat) :
  rstrip (u "/") (s ++ repeat 47 n) = rstrip (u "/") s.
Proof.
  unfold rstrip, rstrip_by. f_equal.
  rewrite rev_app_distr, rev_repeat_same.
  now apply lstrip_by_repeat.
Qed.

Lemma rstrip_not_slash (s : str) (h : N) :
  h <> 47 -> rstrip (u "/") (s ++ [h]) = s ++ [h].
Proof.
  intro Hh. unfold rstrip, rstrip_by. rewrite rev_app_distr. simpl.
  apply N.eqb_neq in Hh. rewrite Hh. simpl.
  now rewrite rev_involutive.
Qed.

(** X11.  The slug of a URL holds no [/]; slashes at the end of the URL are
    ignored; and for a URL that ends in [/seg], with any number of slashes
    after it, the slug is [seg]. *)
Theorem slug_last_segment (url pre seg : str) (n : nat) :
  ~ In 47 (slug url)
  /\ slug (url ++ repeat 47 n) = slug url
  /\ (seg <> [] -> ~ In 47 seg ->
      slug (pre ++ u "/" ++ seg ++ repeat 47 n) = seg).
Proof.
  split; [|split].
  - unfold slug. apply last_Forall; [apply split_segments_clean | intros []].
  - unfold slug. now rewrite rstrip_slashes.
  - intros Hs Hn. unfold slug.
    rewrite !app_assoc, rstrip_slashes, <- !app_assoc.
    destruct (exists_last Hs) as (body & h & ->).
    assert (Hh : h <> 47).
    { intro E. apply Hn. apply in_or_app. right. now left. }
    rewrite !app_assoc, rstrip_not_slash by exact Hh.
    rewrite <- !app_assoc. change (u "/" ++ body ++ [h]) with (47 :: (body ++ [h])).
    rewrite last_split_after_sep, split_clean by exact Hn. reflexivity.
Qed.

Lemma slug_last_segment_witness :
  slug (u "https://www.turkiyesolarmarket.com.tr/urunler" ++ u "/"
          ++ u "solar-kablo-6mm" ++ repeat 47 2)
  = u "solar-kablo-6mm".
Proof.
  apply (proj2 (proj2 (slug_last_segment []
                         (u "https://www.turkiyesolarmarket.com.tr/urunler")
                         (u "solar-kablo-6mm") 2))).
  - discriminate.
  - vm_compute. intuition discriminate.
Defined.

(** X12.  An identifier of at most 50 characters is kept as it is, and
    cutting is done once: what [shorten_id] returns is left unchanged by
    [shorten_id]. *)
Theorem shorten_id_idempotent (i j : json) :
  shorten_id i = Ok j ->
  shorten_id j = Ok j
  /\ (forall n, len i = Ok n -> (n <= 50)%nat -> j = i).
Proof.
  intro E. split.
  - unfold shorten_id in E.
    destruct (len i) as [n|] eqn:L; cbn [bind] in E; [|discriminate].
    destruct (Nat.ltb_spec 50 n) as [Hn | Hn].
    + destruct i; cbn [as_str bind] in E; try discriminate.
      cbn [len] in L. apply Ok_inj in L. subst n.
      destruct (encode s) as [bytes|]; cbn [bind] in E; [|discriminate].
      apply Ok_inj in E. subst j.
      apply shorten_id_short with (n := 50%nat); [|lia].
      change (len (JStr ?x)) with (Ok (length x)). f_equal.
      apply shortened_length; [exact Hn | rewrite hexdigest_length; lia].
    + apply Ok_inj in E. subst j. now apply shorten_id_short with (n := n).
  - intros n L Hn. rewrite (shorten_id_short _ L Hn) in E.
    apply Ok_inj in E. now subst.
Qed.

Lemma shorten_id_idempotent_witness :
  shorten_id (JStr (repeat 120 41 ++ u "-fb98667f"))
  = Ok (JStr (repeat 120 41 ++ u "-fb98667f")).
Proof.
  apply (proj1 (@shorten_id_idempotent (JStr (repeat 120 120)) _ eq_refl)).
Defined.

(** X13.  When the document has no [sku], or an empty one, the id of the
    candidate record is the slug of the URL, cut as any id is; a slug of at
    most 50 characters is the id itself. *)
Theorem id_falls_back_to_slug `{Runtime}
    (m : list (str * json)) (og : dict str) (url : str) (c : product) :
  candidate (JObj m) og url = Ok c ->
  truthy (dict_get_default m (u "sku") (JStr [])) = false ->
  shorten_id (JStr (slug url)) = Ok (id c)
  /\ ((length (slug url) <= 50)%nat -> id c = JStr (slug url)).
Proof.
  intros C T. apply candidate_inv in C.
  destruct C as (_ & _ & _ & _ & _ & _ & _ & _ & S & _).
  rewrite T in S. split; [exact S|].
  intro L.
  apply (proj2 (@shorten_id_idempotent _ _ S) (length (slug url)));
    [reflexivity | exact L].
Qed.

Lemma id_falls_back_to_slug_witness :
  exists c,
    @candidate sample_runtime sample_cable [] (sample_url "solar-kablo-6mm") = Ok c
    /\ id c = JStr (slug (sample_url "solar-kablo-6mm")).
Proof.
  destruct (@candidate sample_runtime sample_cable [] (sample_url "solar-kablo-6mm"))
    as [c|] eqn:C; [|vm_compute in C; discriminate C].
  exists c. split; [reflexivity|].
  apply (proj2 (@id_falls_back_to_slug sample_runtime _ _ _ _ C eq_refl)).
  apply Nat.leb_le. reflexivity.
Defined.

(** ** More on map_google_category *)

Lemma startswith_inv (p s : str) :
  startswith p s = true -> exists b, s = p ++ b.
Proof.
  revert s. induction p as [|a p IH]; intros s E; [now exists s|].
  destruct s as [|c s]; [discriminate|]. simpl in E.
  apply andb_prop in E. destruct E as [Ec E].
  apply N.eqb_eq in Ec. subst c.
  destruct (IH s E) as [b ->]. now exists b.
Qed.

Lemma contains_inv (p s : str) :
  contains p s = true -> exists a b, s = a ++ p ++ b.
Proof.
  induction s as [|c s IH]; simpl; intro E.
  - rewrite orb_false_r in E. apply startswith_inv in E.
    destruct E as [b E]. now exists [], b.
  - apply orb_prop in E. destruct E as [E | E].
    + apply startswith_inv in E. destruct E as [b E]. now exists [], b.
    + destruct (IH E) as (a & b & ->). now exists (c :: a), b.
Qed.

Lemma contains_suffix_of_pattern (a p s : str) :
  contains (a ++ p) s = true -> contains p s = true.
Proof.
  intro E. apply contains_inv in E. destruct E as (x & y & ->).
  rewrite <- app_assoc, app_assoc. apply contains_app.
Qed.

Section MoreCategoryFacts.
Context `{Runtime}.

Lemma lower_ascii (s : str) :
  Forall (fun c => c < 128) s -> lower s = map ascii_lower s.
Proof.
  intro F. unfold lower. apply lower_from_ascii.
  apply Forall_forall. intros c Hc. apply in_map_iff in Hc.
  destruct Hc as (x & <- & Hx).
  assert (Hx' := proj1 (Forall_forall _ _) F x Hx). cbv beta in Hx'.
  unfold ascii_lower. destruct ((65 <=? x) && (x <=? 90)) eqn:E; [|exact Hx'].
  apply andb_prop in E. destruct E as [_ E]. apply N.leb_le in E. lia.
Qed.

Lemma ascii_lower_idempotent (c : N) : ascii_lower (ascii_lower c) = ascii_lower c.
Proof.
  unfold ascii_lower.
  destruct ((65 <=? c) && (c <=? 90)) eqn:E; [|now rewrite E].
  apply andb_prop in E. destruct E as [E1 E2].
  apply N.leb_le in E1, E2.
  destruct (N.leb_spec (c + 32) 90); [lia|]. now rewrite andb_false_r.
Qed.
End MoreCategoryFacts.

(** X14.  The category is Power Inverters exactly when none of the sixteen
    patterns occurs in the lowercased URL, and it is always one of the six
    categories. *)
Theorem power_inverters_iff_no_pattern `{Runtime} (url : str) :
  (map_google_category url = power_inverters <->
   forall patterns cat p,
     In (patterns, cat) classification_rules -> In p patterns ->
     contains p (lower url) = false)
  /\ In (map_google_category url)
        [ solar_panels; power_storage_batteries; motor_vehicle_charging;
          electrical_wires_cable; solar_energy_kits; power_inverters ].
Proof.
  split.
  - split.
    + unfold map_google_category. cbv zeta.
      repeat match goal with
             | |- (if ?b then _ else _) = _ -> _ =>
                 let E := fresh "E" in
                 destruct b eqn:E; [intro D; vm_compute in D; discriminate D|]
             end.
      intros _ patterns cat p Hr Hp.
      repeat match goal with
             | E : _ || _ = false |- _ =>
                 apply orb_false_elim in E; destruct E
             end.
      unfold classification_rules in Hr. cbn [In] in Hr.
      repeat match goal with
             | Hr : _ \/ _ |- _ => destruct Hr as [Hr | Hr]
             end; try contradiction;
        injection Hr as <- <-; cbn [In] in Hp;
        repeat match goal with
               | Hp : _ \/ _ |- _ => destruct Hp as [Hp | Hp]
               end; try contradiction; subst p; assumption.
    + intro Hno. rewrite map_google_category_first_match.
      now apply first_match_default.
  - unfold map_google_category. cbv zeta.
    repeat match goal with
           | |- In (if ?b then _ else _) _ => destruct b
           end; cbn [In]; tauto.
Qed.

(** X15.  On a URL of ASCII characters the category does not depend on the
    case of the letters: the URL and its lowercased form get the same
    category. *)
Theorem category_ignores_ascii_case `{Runtime} (url : str) :
  Forall (fun c => c < 128) url ->
  map_google_category (map ascii_lower url) = map_google_category url.
Proof.
  intro F. unfold map_google_category. cbv zeta.
  assert (E : lower (map ascii_lower url) = lower url).
  { rewrite (lower_ascii F). rewrite lower_ascii.
    - rewrite map_map. apply map_ext. apply ascii_lower_idempotent.
    - apply Forall_forall. intros c Hc. apply in_map_iff in Hc.
      destruct Hc as (x & <- & Hx).
      assert (Hx' := proj1 (Forall_forall _ _) F x Hx). cbv beta in Hx'.
      unfold ascii_lower. destruct ((65 <=? x) && (x <=? 90)) eqn:E; [|exact Hx'].
      apply andb_prop in E. destruct E as [_ E]. apply N.leb_le in E. lia. }
  now rewrite E.
Qed.

Lemma category_ignores_ascii_case_witness :
  @map_google_category sample_runtime
    (map ascii_lower (sample_url "Huawei-LUNA2000-Batarya"))
  = @map_google_category sample_runtime (sample_url "Huawei-LUNA2000-Batarya").
Proof.
  apply (@category_ignores_ascii_case sample_runtime).
  apply Forall_forall. intros c Hc.
  vm_compute in Hc.
  repeat (destruct Hc as [<- | Hc]; [reflexivity|]). destruct Hc.
Defined.

(** X16.  The pattern [solar-kablo] never decides: every URL that contains
    it contains [kablo], a pattern of the same group, so the rule list
    without it classifies every URL in the same way. *)
Theorem solar_kablo_is_redundant `{Runtime} (url : str) :
  map_google_category url
  = first_match rules_without_solar_kablo (lower url) power_inverters.
Proof.
  rewrite map_google_category_first_match.
  unfold classification_rules, rules_without_solar_kablo.
  cbn [first_match existsb].
  destruct (contains (u "solar-kablo") (lower url)) eqn:E; [|reflexivity].
  apply (contains_suffix_of_pattern (u "solar-") (u "kablo")) in E.
  rewrite E. now rewrite !orb_true_r.
Qed.

(** ** More on escape_xml *)

Lemma esc_char_plain (c : N) : reserved c = false -> esc_char c = [c].
Proof.
  unfold reserved, esc_char. intro E.
  repeat (apply orb_false_elim in E; destruct E as [E ?]).
  repeat match goal with
         | E : (_ =? _) = false |- _ => rewrite E; clear E
         end.
  reflexivity.
Qed.

Lemma esc_char_reserved (c : N) :
  reserved c = true -> exists r, esc_char c = 38 :: r /\ (3 <= length r)%nat.
Proof.
  unfold reserved. intro E.
  destruct (esc_char_cases c) as [Hc | (H1 & H2 & H3 & H4 & H5 & _)].
  - destruct Hc as [-> | [-> | [-> | [-> | ->]]]];
      eexists; (split; [reflexivity | simpl; lia]).
  - apply N.eqb_neq in H1, H2, H3, H4, H5.
    rewrite H1, H2, H3, H4, H5 in E. discriminate.
Qed.

Lemma flat_map_esc_char_length (s : str) :
  (length s <= length (flat_map esc_char s))%nat.
Proof.
  induction s as [|c s IH]; simpl; [lia|].
  rewrite length_app.
  destruct (reserved c) eqn:R.
  - destruct (esc_char_reserved c R) as (r & -> & Hr). simpl. lia.
  - rewrite (esc_char_plain c R). simpl. lia.
Qed.

Lemma flat_map_esc_char_fixed (s : str) :
  flat_map esc_char s = s <-> forallb (fun c => negb (reserved c)) s = true.
Proof.
  induction s as [|c s IH]; simpl; [tauto|].
  destruct (reserved c) eqn:R; simpl.
  - split; [|discriminate]. intro E.
    destruct (esc_char_reserved c R) as (r & Er & Hr). rewrite Er in E.
    simpl in E. injection E as _ E.
    apply (f_equal (@length N)) in E. rewrite length_app in E.
    assert (L := flat_map_esc_char_length s). lia.
  - rewrite (esc_char_plain c R). simpl. rewrite <- IH.
    split; [intro E; now injection E | intros ->; reflexivity].
Qed.

(** X17.  On strings [escape_xml] works piece by piece: the escaped form of
    a concatenation is the concatenation of the escaped forms.  It never
    makes a text shorter, and it leaves a text as it is exactly when the
    text has none of the five reserved characters. *)
Theorem escape_xml_piecewise `{Runtime} (a b : str) :
  escape_xml (JStr (a ++ b)) = escape_xml (JStr a) ++ escape_xml (JStr b)
  /\ (length a <= length (escape_xml (JStr a)))%nat
  /\ (escape_xml (JStr a) = a <-> forallb (fun c => negb (reserved c)) a = true).
Proof.
  rewrite !escape_xml_chars. split; [apply flat_map_app|].
  split; [apply flat_map_esc_char_length | apply flat_map_esc_char_fixed].
Qed.

(** ** More on generate_feed *)

Section FeedFacts.
Context `{Runtime}.

Lemma item_raises (p : product) :
  item p = Raise <-> slice_to 150 (title p) = Raise.
Proof.
  unfold item. destruct (slice_to 150 (title p)); cbn [bind]; split;
    intro E; try discriminate E; reflexivity.
Qed.

Lemma feed_loop_raises (ps : list product) (lines : list str) :
  feed_loop ps lines = Raise
  <-> Exists (fun p => slice_to 150 (title p) = Raise) ps.
Proof.
  revert lines. induction ps as [|p ps IH]; intro lines; cbn [feed_loop].
  - split; [discriminate | intro E; inversion E].
  - destruct (item p) as [block|] eqn:I; cbn [bind].
    + rewrite IH. split; [now right|].
      intro E. inversion E as [? ? Hp | ? ? Hr]; subst; [|exact Hr].
      apply item_raises in Hp. congruence.
    + split; [|reflexivity]. intros _. left. now apply item_raises.
Qed.
End FeedFacts.

(** X18.  [generate_feed] raises exactly when the title of one of the
    records can not be sliced, that is when it is neither a string nor a
    list; otherwise it returns the feed. *)
Theorem generate_feed_raises_iff `{Runtime} (products : list product) :
  (generate_feed products = Raise
   <-> Exists (fun p => slice_to 150 (title p) = Raise) products)
  /\ (forall p, slice_to 150 (title p) = Raise
                <-> match title p with JStr _ | JArr _ => False | _ => True end).
Proof.
  split.
  - unfold generate_feed.
    destruct (feed_loop products header) as [lines|] eqn:F; cbn [bind].
    + split; [discriminate|]. intro E.
      apply (feed_loop_raises products header) in E. congruence.
    + split; [|reflexivity]. intros _. now apply (feed_loop_raises products header).
  - intro p. destruct (title p); cbn [slice_to]; split;
      intro E; try discriminate E; try contradiction; trivial.
Qed.

(** X19.  An item has its nine fixed elements, a brand and an mpn element
    only when the field is non-empty, one line for the gtin, the category
    and the closing tag: 12 to 14 lines, between [<item>] and [</item>].
    The title element holds the escaped first 150 characters of the title,
    and the whole title when it has no more than 150. *)
Theorem item_layout `{Runtime} (p : product) (lines : list str) :
  item p = Ok lines ->
  length lines
  = (12 + Nat.b2n (truthy (brand p)) + Nat.b2n (truthy (mpn p)))%nat
  /\ hd [] lines = u "    <item>"
  /\ last lines [] = u "    </item>"
  /\ (forall t, title p = JStr t ->
        nth 2 lines []
        = element (u "      ") (u "g:title") (escape_xml (JStr (firstn 150 t)))
        /\ ((length t <= 150)%nat ->
            nth 2 lines []
            = element (u "      ") (u "g:title") (escape_xml (JStr t)))).
Proof.
  unfold item. intro E.
  destruct (slice_to 150 (title p)) as [t150|] eqn:S; cbn [bind] in E; [|discriminate].
  apply Ok_inj in E. subst lines.
  split; [|split; [|split]].
  - destruct (truthy (brand p)), (truthy (mpn p)), (truthy (gtin p)); reflexivity.
  - reflexivity.
  - destruct (truthy (brand p)), (truthy (mpn p)), (truthy (gtin p)); reflexivity.
  - intros t Et. rewrite Et in S. cbn [slice_to] in S. apply Ok_inj in S. subst t150.
    split; [reflexivity|]. intro L. cbn [app nth]. now rewrite firstn_all2.
Qed.

Lemma item_layout_witness :
  exists lines,
    @item sample_runtime sample_panel = Ok lines /\ length lines = 14%nat.
Proof.
  destruct (@item_of_str_title sample_runtime sample_panel eq_refl) as [lines E].
  exists lines. split; [exact E|].
  exact (proj1 (@item_layout sample_runtime sample_panel lines E)).
Defined.

(** ** More on main *)

Section MainFacts.
Context `{Runtime}.

Lemma tally_count (done : list (result (option product)))
    (products : list product) (errors : nat) :
  (length (fst (tally done products errors)) + snd (tally done products errors)
   = length products + errors + length done)%nat.
Proof.
  revert products errors.
  induction done as [|r done IH]; intros products errors; simpl; [lia|].
  destruct r as [[p|]|]; rewrite IH; [rewrite length_app; simpl|..]; lia.
Qed.

Lemma as_completed_length (w : world) (urls : list str) :
  length (as_completed w urls) = length urls.
Proof.
  unfold as_completed. rewrite length_map.
  rewrite <- (Permutation_length (stable_sort_perm _ _ _)).
  rewrite length_map, length_combine, length_seq. lia.
Qed.

Lemma fetch_url_nothing (resp : nat -> option str) (url : str) :
  (forall n, (n < 3)%nat -> resp n = None \/ resp n = Some []) ->
  fetch_url resp url = None \/ fetch_url resp url = Some [].
Proof.
  intro E. unfold fetch_url. cbn [Nat.add fetch_attempts].
  destruct (request_ok url); [|now left].
  destruct (E 0%nat) as [-> | ->]; [lia | | now right].
  destruct (E 1%nat) as [-> | ->]; [lia | | now right].
  destruct (E 2%nat) as [-> | ->]; [lia | now left | now right].
Qed.

End MainFacts.


(** X20.  Every URL of the sitemap is accounted for once, also a URL that
    is listed twice: the number of collected records and the number of
    errors add up to the number of URLs. *)
Theorem every_url_counted `{Runtime} (w : world) (urls : list str) :
  (length (fst (tally (as_completed w urls) [] 0))
   + snd (tally (as_completed w urls) [] 0) = length urls)%nat.
Proof.
  rewrite tally_count, as_completed_length. simpl. lia.
Qed.

(** X21.  When the sitemap cannot be fetched in three attempts, or comes
    back empty, the run ends with exit code 1 after the line that says so;
    nothing is written. *)
Theorem sitemap_failure_is_fatal `{Runtime} (w : world) :
  (forall n, (n < 3)%nat -> urlopen w 0 n = None \/ urlopen w 0 n = Some []) ->
  main w = {| exit_code := 1; written := None; file := None;
              stdout := banner ++ [ u "ERROR: Could not fetch sitemap" ] |}.
Proof.
  intro E. unfold main, get_product_urls.
  destruct (@fetch_url_nothing (urlopen w 0) SITEMAP_URL E) as [-> | ->];
    reflexivity.
Qed.



Lemma sitemap_failure_is_fatal_witness :
  @main sample_runtime {| urlopen := fun _ _ => None; finish_time := fun i => i |}
  = {| exit_code := 1; written := None; file := None;
       stdout := banner ++ [ u "ERROR: Could not fetch sitemap" ] |}.
Proof.
  apply (@sitemap_failure_is_fatal sample_runtime).
  intros n _. left. reflexivity.
Defined.



(** ** More on the sort *)

Section StableSortFacts.
Variables (A K : Type) (ltb : K -> K -> bool) (key : A -> K).
Variable keqb : K -> K -> bool.
Hypothesis keqb_eq : forall a b, keqb a b = true <-> a = b.
Hypothesis ltb_irrefl : forall a, ltb a a = false.
Hypothesis ltb_antisym : forall a b, ltb a b = false -> ltb b a = false -> a = b.

Lemma insert_by_filter (k : K) (x : A) (l : list A) :
  filter (fun y => keqb (key y) k) (insert_by ltb key x l)
  = filter (fun y => keqb (key y) k) (x :: l).
Proof.
  induction l as [|y l IH]; [reflexivity|].
  cbn [insert_by]. destruct (ltb (key y) (key x)) eqn:L; [|reflexivity].
  cbn [filter] in *. rewrite IH.
  destruct (keqb (key y) k) eqn:Ey, (keqb (key x) k) eqn:Ex; try reflexivity.
  apply keqb_eq in Ey, Ex. rewrite Ey, Ex, ltb_irrefl in L. discriminate.
Qed.

Lemma stable_sort_filter (k : K) (l : list A) :
  filter (fun y => keqb (key y) k) (stable_sort ltb key l)
  = filter (fun y => keqb (key y) k) l.
Proof.
  induction l as [|x l IH]; [reflexivity|].
  cbn [stable_sort fold_right]. fold (stable_sort ltb key l).
  rewrite insert_by_filter. cbn [filter]. now rewrite IH.
Qed.

End StableSortFacts.

Lemma str_ltb_irrefl (a : str) : str_ltb a a = false.
Proof.
  induction a as [|x a IH]; [reflexivity|].
  simpl. now rewrite N.ltb_irrefl, N.eqb_refl, IH.
Qed.


(** X24.  The sort is stable: the records that share a title stand in the
    sorted list in the order in which they were collected. *)
Theorem sort_keeps_order_of_equal_titles `{Runtime} (collected : list product) :
  Forall (fun p => is_str (title p) = true) collected ->
  exists sorted,
    list_sort title collected = Ok sorted
    /\ forall t,
         filter (fun p => str_eqb (text_of (title p)) t) sorted
         = filter (fun p => str_eqb (text_of (title p)) t) collected.
Proof.
  intro F. eexists. split; [now apply list_sort_str_titles|].
  intro t. apply stable_sort_filter.
  - apply str_eqb_eq.
  - apply str_ltb_irrefl.
Qed.

Lemma sort_keeps_order_of_equal_titles_witness :
  exists sorted,
    @list_sort sample_runtime _ title
      [sample_record_again; sample_panel; sample_record] = Ok sorted
    /\ filter (fun p => str_eqb (text_of (title p)) (text_of (title sample_record)))
              sorted
       = [sample_record_again; sample_record].
Proof.
  destruct (@sort_keeps_order_of_equal_titles sample_runtime
              [sample_record_again; sample_panel; sample_record])
    as (sorted & S & E).
  - repeat (apply Forall_cons; [reflexivity|]). apply Forall_nil.
  - exists sorted. split; [exact S|]. rewrite E. reflexivity.
Defined.

Section OrderFacts.
Context `{Runtime}.



End OrderFacts.



(** ** The condition and availability of an offer *)

(** Case analysis on the keys of a table that a string is compared with. *)
Ltac table_cases s :=
  repeat match goal with
         | |- context [str_eqb ?k s] =>
             let E := fresh "E" in destruct (str_eqb k s) eqn:E
         end.

Ltac table_keys :=
  repeat match goal with
         | E : str_eqb _ _ = true |- _ => apply str_eqb_eq in E; subst
         end.

Ltac table_other_key X :=
  first
    [ vm_compute in X; discriminate X
    | injection X as X; subst;
      repeat match goal with
             | E : str_eqb _ _ = false |- _ => vm_compute in E; try discriminate E
             end ].

Lemma cond_map_used (v : json) (r : str) :
  table_get cond_map v (u "new") = Ok r ->
  (r = u "used" <-> v = JStr (u "https://schema.org/UsedCondition"))
  /\ (r = u "refurbished" <-> v = JStr (u "https://schema.org/RefurbishedCondition")).
Proof.
  destruct v as [|b|z|f|s|l|m]; cbn [table_get]; intro E; try discriminate E;
    apply Ok_inj in E; subst r.
  1-4: split; (split; intro X; [vm_compute in X; discriminate X | discriminate X]).
  unfold dict_get_default, cond_map. cbn [dict_get].
  table_cases s; split; split; intro X;
    try (vm_compute in X; discriminate X);
    table_keys; try reflexivity; table_other_key X.
Qed.

Lemma avail_map_out_of_stock (v : json) (r : str) :
  table_get avail_map v (u "in_stock") = Ok r ->
  (r = u "out_of_stock"
   <-> v = JStr (u "https://schema.org/OutOfStock")
       \/ v = JStr (u "http://schema.org/OutOfStock"))
  /\ (r = u "preorder" <-> v = JStr (u "https://schema.org/PreOrder")).
Proof.
  destruct v as [|b|z|f|s|l|m]; cbn [table_get]; intro E; try discriminate E;
    apply Ok_inj in E; subst r.
  1-4: split; (split; intro X;
               [vm_compute in X; discriminate X
               |try destruct X as [X | X]; discriminate X]).
  unfold dict_get_default, avail_map. cbn [dict_get].
  table_cases s; split; split; intro X;
    try (vm_compute in X; discriminate X);
    table_keys; try (now left); try (now right); try reflexivity;
    try destruct X as [X | X]; table_other_key X.
Qed.

(** X26.  The condition of a candidate record is [used] exactly when the
    offer's itemCondition is the secure UsedCondition URI and [refurbished]
    exactly for the secure RefurbishedCondition URI; every other value, the
    insecure forms of these two among them, reads as [new]. *)
Theorem condition_of_offer `{Runtime}
    (m om : list (str * json)) (og : dict str) (url : str) (c : product) :
  candidate (JObj m) og url = Ok c ->
  dict_get_default m (u "offers") (JObj []) = JObj om ->
  let v := dict_get_default om (u "itemCondition") (JStr []) in
  (condition c = u "used" <-> v = JStr (u "https://schema.org/UsedCondition"))
  /\ (condition c = u "refurbished"
      <-> v = JStr (u "https://schema.org/RefurbishedCondition"))
  /\ (v <> JStr (u "https://schema.org/UsedCondition") ->
      v <> JStr (u "https://schema.org/RefurbishedCondition") ->
      condition c = u "new").
Proof.
  intros C O v. apply candidate_inv in C.
  destruct C as (om' & _ & _ & O' & _ & _ & _ & K & _).
  rewrite O in O'. injection O' as <-. fold v in K.
  destruct (cond_map_used _ K) as [U R].
  split; [exact U|]. split; [exact R|].
  intros Nu Nr. apply cond_map_values in K.
  unfold condition_values in K. cbn [In] in K.
  destruct K as [K | [K | [K | []]]]; [now symmetry | |].
  - symmetry in K. now apply U in K.
  - symmetry in K. now apply R in K.
Qed.

(** X27.  The availability of a candidate record is [out_of_stock] exactly
    for the two OutOfStock URIs and [preorder] exactly for the secure
    PreOrder URI; every other value that can be hashed reads as
    [in_stock]. *)
Theorem availability_of_offer `{Runtime}
    (m om : list (str * json)) (og : dict str) (url : str) (c : product) :
  candidate (JObj m) og url = Ok c ->
  dict_get_default m (u "offers") (JObj []) = JObj om ->
  let v := dict_get_default om (u "availability") (JStr []) in
  (availability c = u "out_of_stock"
   <-> v = JStr (u "https://schema.org/OutOfStock")
       \/ v = JStr (u "http://schema.org/OutOfStock"))
  /\ (availability c = u "preorder" <-> v = JStr (u "https://schema.org/PreOrder"))
  /\ (v <> JStr (u "https://schema.org/OutOfStock") ->
      v <> JStr (u "http://schema.org/OutOfStock") ->
      v <> JStr (u "https://schema.org/PreOrder") ->
      availability c = u "in_stock").
Proof.
  intros C O v. apply candidate_inv in C.
  destruct C as (om' & _ & _ & O' & _ & _ & K & _).
  rewrite O in O'. injection O' as <-. fold v in K.
  destruct (avail_map_out_of_stock _ K) as [U R].
  split; [exact U|]. split; [exact R|].
  intros N1 N2 N3. apply avail_map_values in K.
  unfold availability_values in K. cbn [In] in K.
  destruct K as [K | [K | [K | []]]]; [now symmetry | |].
  - symmetry in K. apply U in K. tauto.
  - symmetry in K. now apply R in K.
Qed.

Lemma condition_of_offer_witness :
  exists c,
    @candidate sample_runtime sample_inverter [] (sample_url "fronius-symo-10") = Ok c
    /\ condition c = u "new".
Proof.
  destruct (@candidate sample_runtime sample_inverter [] (sample_url "fronius-symo-10"))
    as [c|] eqn:C; [|vm_compute in C; discriminate C].
  exists c. split; [reflexivity|].
  destruct (@condition_of_offer sample_runtime _ _ _ _ _ C eq_refl) as (_ & _ & N).
  apply N; intro E; vm_compute in E; discriminate E.
Defined.

Lemma availability_of_offer_witness :
  exists c,
    @candidate sample_runtime (sample_preorder "https") []
               (sample_url "wattpilot-go-22-j") = Ok c
    /\ availability c = u "preorder".
Proof.
  destruct (@candidate sample_runtime (sample_preorder "https") []
              (sample_url "wattpilot-go-22-j"))
    as [c|] eqn:C; [|vm_compute in C; discriminate C].
  exists c. split; [reflexivity|].
  destruct (@availability_of_offer sample_runtime _ _ _ _ _ C eq_refl) as (_ & P & _).
  apply P. reflexivity.
Defined.

(** ** Documents on which the extractor does not raise *)

Lemma shorten_id_str_returns (x : str) :
  forallb is_scalar x = true -> exists j, shorten_id (JStr x) = Ok j.
Proof.
  intro Sc. unfold shorten_id, encode. cbn [len bind as_str].
  destruct (50 <? length x)%nat; [|eauto].
  rewrite Sc. cbn [bind]. eauto.
Qed.

(** X28.  The extractor returns a candidate record, and does not raise, for
    every document whose [offers] and [brand] are objects or absent, whose
    description, availability and itemCondition are strings or absent, and
    whose [sku] is a string or absent, provided the sku and the slug of the
    URL have a UTF-8 encoding. *)
Theorem candidate_returns `{Runtime}
    (m om bm : list (str * json)) (og : dict str) (url s : str) :
  dict_get_default m (u "offers") (JObj []) = JObj om ->
  dict_get_default m (u "brand") (JObj []) = JObj bm ->
  is_str (dict_get_default m (u "description") (JStr [])) = true ->
  is_str (dict_get_default om (u "availability") (JStr [])) = true ->
  is_str (dict_get_default om (u "itemCondition") (JStr [])) = true ->
  dict_get_default m (u "sku") (JStr []) = JStr s ->
  forallb is_scalar s = true ->
  forallb is_scalar (slug url) = true ->
  exists c, candidate (JObj m) og url = Ok c.
Proof.
  intros O B D Av Co Sk Ss Su.
  unfold candidate. cbn [get bind]. rewrite O. cbn [get bind].
  destruct (dict_get_default om (u "availability") (JStr [])); try discriminate Av.
  destruct (dict_get_default om (u "itemCondition") (JStr [])); try discriminate Co.
  cbn [table_get bind].
  destruct (dict_get_default m (u "description") (JStr [])) as [| | | |d| |];
    try discriminate D.
  assert (Ed : as_str (if truthy (JStr d) then JStr d
                       else JStr (dict_get_default og (u "meta_description") []))
               = Ok (if truthy (JStr d) then d
                     else dict_get_default og (u "meta_description") []))
    by (destruct (truthy (JStr d)); reflexivity).
  rewrite Ed. cbn [bind]. rewrite B. cbn [get bind]. rewrite Sk.
  assert (Ei : exists j, shorten_id (if truthy (JStr s) then JStr s
                                     else JStr (slug url)) = Ok j).
  { destruct (truthy (JStr s)); now apply shorten_id_str_returns. }
  destruct Ei as [j Ej]. rewrite Ej. cbn [bind]. eauto.
Qed.

Lemma candidate_returns_witness :
  exists c,
    @candidate sample_runtime sample_inverter [] (sample_url "fronius-symo-10") = Ok c.
Proof.
  unfold sample_inverter.
  eapply (@candidate_returns sample_runtime); reflexivity.
Defined.

(** ** escape_xml and a reader of XML *)











(** C9, as the specification words it, fails: a field with a reserved
    character and a control character gives a text that is no character
    data, so the document is not well-formed; and a field with a reserved
    character and a carriage return is read back with a line feed in its
    place. *)
Lemma escape_xml_invertible_counterexample :
  @escape_xml sample_runtime (JStr [38; 1]) = u "&amp;" ++ [1]
  /\ xml_read (@escape_xml sample_runtime (JStr [38; 1])) = None
  /\ @escape_xml sample_runtime (JStr [38; 13]) = u "&amp;" ++ [13]
  /\ xml_read (@escape_xml sample_runtime (JStr [38; 13])) = Some [38; 10]
  /\ ~ (forall s, xml_read (@escape_xml sample_runtime (JStr s)) = Some s).
Proof.
  repeat split; try (vm_compute; reflexivity).
  intro A. specialize (A [38; 1]). vm_compute in A. discriminate A.
Qed.


(** ** The id of an accepted record *)



(** C3, as the specification words it, fails on a page whose sku is a list
    of one string of 100 characters: the record is accepted, its id is that
    list, and the text that the serializer writes between the [g:id] tags
    has 114 characters (104 before escaping). *)
Lemma accepted_record_complete_counterexample :
  @scrape_product sample_runtime_words (fun _ => Some (u "page of the drum"))
                  (sample_url "solar-cable-drum") = Ok (Some sample_drum_record)
  /\ id sample_drum_record = JArr [ JStr (repeat 120 100) ]
  /\ length (@py_str sample_runtime_words (id sample_drum_record)) = 104%nat
  /\ length (@escape_xml sample_runtime_words (id sample_drum_record)) = 114%nat
  /\ (exists lines,
        @item sample_runtime_words sample_drum_record = Ok lines
        /\ nth 1 lines []
           = u "      <g:id>"
               ++ @escape_xml sample_runtime_words (id sample_drum_record)
               ++ u "</g:id>")
  /\ ~ (exists s, id sample_drum_record = JStr s /\ (length s <= 50)%nat).
Proof.
  split; [vm_compute; reflexivity|]. split; [reflexivity|].
  split; [vm_compute; reflexivity|]. split; [vm_compute; reflexivity|].
  split.
  - eexists. split; [reflexivity|]. vm_compute. reflexivity.
  - intros (s & Es & _). discriminate Es.
Qed.


(** ** The shortened identifier *)


(** C4, as the specification words it, fails on an identifier of 51
    surrogates, a string that [json.loads] delivers: it is longer than 50
    characters and the code raises on it, so that no identifier comes out. *)
Lemma shorten_id_long_counterexample :
  (50 < length (repeat 55296%N 51))%nat
  /\ shorten_id (JStr (repeat 55296 51)) = Raise
  /\ @candidate sample_runtime
        (JObj [ (u "@type", JStr (u "Product"));
                (u "name", JStr (u "Solar cable drum"));
                (u "sku", JStr (repeat 55296 51)) ])
        [] (sample_url "solar-cable-drum") = Raise
  /\ ~ (forall s, (50 < length s)%nat ->
                  exists t, shorten_id (JStr s) = Ok (JStr t) /\ length t = 50%nat).
Proof.
  split; [rewrite repeat_length; lia|].
  split; [vm_compute; reflexivity|].
  split; [vm_compute; reflexivity|].
  intro A. destruct (A (repeat 55296 51)) as (t & E & _).
  - rewrite repeat_length. lia.
  - vm_compute in E. discriminate E.
Qed.

